(** * Hotel Emojis: the session, spawn and timing engine of [App]

    A shallow embedding of the game logic of the React component [App]
    (item catalog, clock and theme, grid spawn and sweep, door drop,
    click handlers, pause/resume and restart), with the properties of
    the specification stated over it.

    Conventions of the embedding.
    - JavaScript numbers that hold timestamps, points and counters are
      integers in every run of the program; they are modelled as [Z].
      [Math.floor (a / b)] on such integers with positive [b] is [Z.div],
      and the remainder operator [%] is [Z.rem].
    - [Math.random ()] returns a number in the interval from 0 (included)
      to 1 (excluded); a draw is modelled as a rational [u : Q] passed in
      by the caller, and [unit_draw u] says that it lies in that interval.
    - [Date.now ()] is an input [now : Z] of every handler that reads it;
      the reads inside one handler see the same instant.
    - The React state variables and refs of [App] that the engine uses
      are the fields of one record [State]; a handler or effect is a
      function from [State] to [State]. *)

From Stdlib Require Import ZArith QArith Qround String Ascii List Bool Lia.
From Stdlib Require Import DecimalString DecimalZ.
From stdpp Require Import base list.

Open Scope Z_scope.

(** ** Item catalog *)

Inductive EmojiKind : Type := good | bad | bomb.

Definition is_bomb (k : EmojiKind) : bool :=
  match k with bomb => true | _ => false end.

Module Spawnable.
Record t : Type := mk { kind : EmojiKind; emoji : string; points : Z }.
End Spawnable.

Module DoorItem.
Record t : Type := mk { emoji : string; points : Z }.
End DoorItem.

Inductive Theme : Type := day | night.

Definition themedPoints (points : Z) (theme : Theme) : Z :=
  match theme with night => - points | day => points end.

Definition windowDelta (item : Spawnable.t) (theme : Theme) : Z :=
  if is_bomb (Spawnable.kind item) then 0
  else themedPoints (Spawnable.points item) theme.

Module WindowCell.
Record t : Type := mk { id : nat; active : option Spawnable.t; expiresAt : Z }.
End WindowCell.

Module DoorDrop.
Record t : Type := mk { emoji : string; points : Z; expiresAt : Z }.
End DoorDrop.

Inductive View : Type := welcome | instructions | game.

Definition is_game (v : View) : bool :=
  match v with game => true | _ => false end.

Definition COLS : nat := 2.
Definition ROWS : nat := 5.
Definition CELL_COUNT : nat := COLS * ROWS.

Definition SPAWN_INTERVAL_MS : Z := 1000.
Definition CLEANUP_INTERVAL_MS : Z := 150.
Definition TTL_MIN_MS : Z := 3000.
Definition TTL_MAX_MS : Z := 6000.

Definition DOOR_ITEMS : list DoorItem.t :=
  [ DoorItem.mk "🎁" 10;
    DoorItem.mk "🪙" 15;
    DoorItem.mk "🔑" 8;
    DoorItem.mk "❄️" (-12);
    DoorItem.mk "❤️‍🩹" (-10) ].

Definition SPAWNABLES : list Spawnable.t :=
  [ Spawnable.mk good "💎" 5;
    Spawnable.mk good "🍀" 3;
    Spawnable.mk good "⭐️" 2;
    Spawnable.mk good "❤️" 1;
    Spawnable.mk bad "💀" (-2);
    Spawnable.mk bad "😭" (-4);
    Spawnable.mk bad "🔥" (-1);
    Spawnable.mk bomb "💣" 0 ].

(** ** Random draws *)

(** [Math.random ()] lies in the unit interval, 1 excluded. *)
Definition unit_draw (u : Q) : Prop := (0 <= u)%Q /\ (u < 1)%Q.

(** [randomInt]: [Math.floor (Math.random () * maxExclusive)]. *)
Definition randomInt (u : Q) (maxExclusive : Z) : Z :=
  Qfloor (u * inject_Z maxExclusive).

Definition randomIntRange (u : Q) (minInclusive maxInclusive : Z) : Z :=
  minInclusive + randomInt u (maxInclusive - minInclusive + 1).

(** Array read [arr[i]] at a number: [undefined] (here [None]) when the
    index is negative or past the end. *)
Definition at_index {A : Type} (arr : list A) (i : Z) : option A :=
  if i <? 0 then None else arr !! Z.to_nat i.

Definition createInitialGrid : list WindowCell.t :=
  map (fun i => WindowCell.mk i None 0) (seq 0 CELL_COUNT).

(** [DOOR_ITEMS[randomInt (DOOR_ITEMS.length)]]. *)
Definition pickDoorItem (u : Q) : option DoorItem.t :=
  at_index DOOR_ITEMS (randomInt u (Z.of_nat (length DOOR_ITEMS))).

(** ** Session state *)

(** The state variables ([useState]) and refs ([useRef]) of [App] that
    the engine reads or writes. [startedAt] and [pausedAt] are the refs
    [startedAtRef.current] and [pausedAtRef.current]. *)
Record State : Type := mkState {
  view : View;
  grid : list WindowCell.t;
  points : Z;
  gameOver : bool;
  doorDrop : option DoorDrop.t;
  doorMilestonesAwarded : Z;
  elapsedSeconds : Z;
  runKey : Z;
  startedAt : Z;
  pausedAt : option Z
}.

Definition setView (v : View) (s : State) : State :=
  mkState v (grid s) (points s) (gameOver s) (doorDrop s)
    (doorMilestonesAwarded s) (elapsedSeconds s) (runKey s)
    (startedAt s) (pausedAt s).

Definition setGrid (g : list WindowCell.t) (s : State) : State :=
  mkState (view s) g (points s) (gameOver s) (doorDrop s)
    (doorMilestonesAwarded s) (elapsedSeconds s) (runKey s)
    (startedAt s) (pausedAt s).

Definition setPoints (p : Z) (s : State) : State :=
  mkState (view s) (grid s) p (gameOver s) (doorDrop s)
    (doorMilestonesAwarded s) (elapsedSeconds s) (runKey s)
    (startedAt s) (pausedAt s).

Definition setGameOver (b : bool) (s : State) : State :=
  mkState (view s) (grid s) (points s) b (doorDrop s)
    (doorMilestonesAwarded s) (elapsedSeconds s) (runKey s)
    (startedAt s) (pausedAt s).

Definition setDoorDrop (d : option DoorDrop.t) (s : State) : State :=
  mkState (view s) (grid s) (points s) (gameOver s) d
    (doorMilestonesAwarded s) (elapsedSeconds s) (runKey s)
    (startedAt s) (pausedAt s).

Definition setDoorMilestonesAwarded (m : Z) (s : State) : State :=
  mkState (view s) (grid s) (points s) (gameOver s) (doorDrop s)
    m (elapsedSeconds s) (runKey s) (startedAt s) (pausedAt s).

Definition setElapsedSeconds (e : Z) (s : State) : State :=
  mkState (view s) (grid s) (points s) (gameOver s) (doorDrop s)
    (doorMilestonesAwarded s) e (runKey s) (startedAt s) (pausedAt s).

Definition setRunKey (k : Z) (s : State) : State :=
  mkState (view s) (grid s) (points s) (gameOver s) (doorDrop s)
    (doorMilestonesAwarded s) (elapsedSeconds s) k
    (startedAt s) (pausedAt s).

Definition setStartedAt (t : Z) (s : State) : State :=
  mkState (view s) (grid s) (points s) (gameOver s) (doorDrop s)
    (doorMilestonesAwarded s) (elapsedSeconds s) (runKey s)
    t (pausedAt s).

Definition setPausedAt (p : option Z) (s : State) : State :=
  mkState (view s) (grid s) (points s) (gameOver s) (doorDrop s)
    (doorMilestonesAwarded s) (elapsedSeconds s) (runKey s)
    (startedAt s) p.

(** The state of a freshly mounted [App]; [t0] is the [Date.now ()] that
    initialises [startedAtRef]. *)
Definition initialState (t0 : Z) : State :=
  mkState welcome createInitialGrid 0 false None 0 0 0 t0 None.

(** ** Clock and theme *)

(** [Math.floor ((elapsedSeconds + 5) / 60) % 2 === 0 ? 'day' : 'night'] *)
Definition themeOf (elapsed : Z) : Theme :=
  if Z.rem ((elapsed + 5) / 60) 2 =? 0 then day else night.

Definition theme (s : State) : Theme := themeOf (elapsedSeconds s).

Definition isThemeTransitionWindow (s : State) : bool :=
  55 <=? Z.rem (elapsedSeconds s) 60.

(** The callback of the 250 ms interval. *)
Definition timerTick (now : Z) (s : State) : State :=
  setElapsedSeconds ((now - startedAt s) / 1000) s.

(** ** Pause and resume: the effect on [view] and [elapsedSeconds] *)

Definition shiftCell (delta : Z) (cell : WindowCell.t) : WindowCell.t :=
  match WindowCell.active cell with
  | Some _ =>
      WindowCell.mk (WindowCell.id cell) (WindowCell.active cell)
        (WindowCell.expiresAt cell + delta)
  | None => cell
  end.

Definition shiftDoor (delta : Z) (d : option DoorDrop.t) : option DoorDrop.t :=
  match d with
  | Some prev =>
      Some (DoorDrop.mk (DoorDrop.emoji prev) (DoorDrop.points prev)
              (DoorDrop.expiresAt prev + delta))
  | None => None
  end.

(** The branch of the effect taken when the view is the game and a pause
    mark [pausedAt] is recorded. *)
Definition resume (now pausedAt : Z) (s : State) : State :=
  let delta := now - pausedAt in
  let s1 := setStartedAt (now - elapsedSeconds s * 1000) (setPausedAt None s) in
  if 0 <? delta
  then setGrid (map (shiftCell delta) (grid s1))
         (setDoorDrop (shiftDoor delta (doorDrop s1)) s1)
  else s1.

Definition viewEffect (now : Z) (s : State) : State :=
  if negb (is_game (view s)) then
    match pausedAt s with
    | None => setPausedAt (Some now) s
    | Some _ => s
    end
  else
    match pausedAt s with
    | None => setStartedAt (now - elapsedSeconds s * 1000) s
    | Some p => resume now p s
    end.

(** ** Door milestones *)

(** [Math.floor (points / 50)] *)
Definition doorMilestones (s : State) : Z := points s / 50.

(** The milestone effect. [u1] is the draw of [pickDoorItem] and [u2] the
    draw of the time to live. [DOOR_ITEMS[k]] is defined for every index
    that [randomInt] returns on a unit draw; outside it the source fails
    on [item.emoji], and the model leaves the state as it is. *)
Definition milestoneEffect (now : Z) (u1 u2 : Q) (s : State) : State :=
  if negb (is_game (view s)) then s
  else if gameOver s then s
  else if doorMilestones s <=? 0 then s
  else if doorMilestones s <=? doorMilestonesAwarded s then s
  else
    match pickDoorItem u1 with
    | Some item =>
        setDoorDrop
          (Some (DoorDrop.mk (DoorItem.emoji item) (DoorItem.points item)
                   (now + randomIntRange u2 TTL_MIN_MS TTL_MAX_MS)))
          (setDoorMilestonesAwarded (doorMilestones s) s)
    | None => s
    end.

(** ** Grid spawn and sweep *)

(** Truthiness of [cell.active]. *)
Definition is_active (cell : WindowCell.t) : bool :=
  match WindowCell.active cell with Some _ => true | None => false end.

(** [!cell.active || cell.expiresAt <= now] *)
Definition available (now : Z) (cell : WindowCell.t) : bool :=
  negb (is_active cell) || (WindowCell.expiresAt cell <=? now).

(** The loop that collects [emptyIndices], from index [i] on. *)
Fixpoint emptyIndicesFrom (now : Z) (i : nat) (cells : list WindowCell.t)
  : list nat :=
  match cells with
  | [] => []
  | cell :: rest =>
      if available now cell
      then i :: emptyIndicesFrom now (S i) rest
      else emptyIndicesFrom now (S i) rest
  end.

(** The updater of the spawn interval. [u1] draws the target among the
    empty indices, [u2] the catalog item, [u3] the time to live. An
    index out of the bounds of [SPAWNABLES] reads [undefined], which the
    program treats like [null]. An [undefined] target index would write
    no element of the array; the model returns the cells as they are. *)
Definition spawnGrid (now : Z) (u1 u2 u3 : Q) (prev : list WindowCell.t)
  : list WindowCell.t :=
  let emptyIndices := emptyIndicesFrom now 0 prev in
  if (length emptyIndices =? 0)%nat then prev
  else
    match at_index emptyIndices
            (randomInt u1 (Z.of_nat (length emptyIndices))) with
    | None => prev
    | Some targetIndex =>
        match prev !! targetIndex with
        | None => prev
        | Some old =>
            <[ targetIndex :=
                 WindowCell.mk (WindowCell.id old)
                   (at_index SPAWNABLES
                      (randomInt u2 (Z.of_nat (length SPAWNABLES))))
                   (now + randomIntRange u3 TTL_MIN_MS TTL_MAX_MS) ]> prev
        end
    end.

Definition spawnTick (now : Z) (u1 u2 u3 : Q) (s : State) : State :=
  setGrid (spawnGrid now u1 u2 u3 (grid s)) s.

Definition clearCell (cell : WindowCell.t) : WindowCell.t :=
  WindowCell.mk (WindowCell.id cell) None 0.

Definition sweepCell (now : Z) (cell : WindowCell.t) : WindowCell.t :=
  match WindowCell.active cell with
  | Some _ => if WindowCell.expiresAt cell <=? now then clearCell cell else cell
  | None => cell
  end.

Definition sweepDoor (now : Z) (d : option DoorDrop.t) : option DoorDrop.t :=
  match d with
  | None => None
  | Some prev => if DoorDrop.expiresAt prev <=? now then None else Some prev
  end.

(** The callback of the cleanup interval. *)
Definition cleanupTick (now : Z) (s : State) : State :=
  setGrid (map (sweepCell now) (grid s))
    (setDoorDrop (sweepDoor now (doorDrop s)) s).

(** ** Click handlers *)

Definition onClickWindow (id : nat) (s : State) : State :=
  if gameOver s then s
  else if negb (is_game (view s)) then s
  else
    match grid s !! id with
    | None => s
    | Some cell =>
        match WindowCell.active cell with
        | None => s
        | Some picked =>
            if is_bomb (Spawnable.kind picked) then
              setGrid
                (map (fun c => if (WindowCell.id c =? id)%nat
                               then clearCell c else c) (grid s))
                (setGameOver true s)
            else
              setGrid (<[ id := clearCell cell ]> (grid s))
                (setPoints (points s + windowDelta picked (theme s)) s)
        end
    end.

Definition onClickDoor (now : Z) (s : State) : State :=
  if gameOver s then s
  else if negb (is_game (view s)) then s
  else
    match doorDrop s with
    | None => s
    | Some prev =>
        if DoorDrop.expiresAt prev <=? now then setDoorDrop None s
        else
          setDoorDrop None
            (setPoints (points s + themedPoints (DoorDrop.points prev) (theme s)) s)
    end.

(** ** Restart *)

Definition restart (s : State) : State :=
  setRunKey (runKey s + 1)
    (setGrid createInitialGrid
       (setDoorMilestonesAwarded 0
          (setDoorDrop None (setGameOver false (setPoints 0 s))))).

(** The effect on [runKey], which runs after [restart] has bumped it. *)
Definition runKeyEffect (now : Z) (s : State) : State :=
  setElapsedSeconds 0 (setStartedAt now s).

(** [restart] together with the effect that its new [runKey] triggers. *)
Definition restartRun (now : Z) (s : State) : State :=
  runKeyEffect now (restart s).

Definition startGame (s : State) : State := setView game (restart s).

Definition openInstructions (s : State) : State := setView instructions s.

(** ** Executions *)

(** One event of the program: a handler, an interval callback or an
    effect. The spawn, cleanup and timer intervals exist only while the
    view is the game and the game is not over. *)
Inductive step : State -> State -> Prop :=
  | step_viewEffect now s : step s (viewEffect now s)
  | step_milestone now u1 u2 s :
      unit_draw u1 -> unit_draw u2 -> step s (milestoneEffect now u1 u2 s)
  | step_spawn now u1 u2 u3 s :
      view s = game -> gameOver s = false ->
      unit_draw u1 -> unit_draw u2 -> unit_draw u3 ->
      step s (spawnTick now u1 u2 u3 s)
  | step_cleanup now s :
      view s = game -> gameOver s = false -> step s (cleanupTick now s)
  | step_timer now s :
      view s = game -> gameOver s = false -> step s (timerTick now s)
  | step_clickWindow id s : step s (onClickWindow id s)
  | step_clickDoor now s : step s (onClickDoor now s)
  | step_restart s : step s (restart s)
  | step_runKeyEffect now s : step s (runKeyEffect now s)
  | step_startGame s : step s (startGame s)
  | step_openInstructions s : step s (openInstructions s)
  | step_backToGame s : step s (setView game s).

Inductive reachable : State -> Prop :=
  | reachable_init t0 : reachable (initialState t0)
  | reachable_step s s' : reachable s -> step s s' -> reachable s'.

(** Number of occupied slots. *)
Definition occupied (cells : list WindowCell.t) : nat :=
  length (List.filter is_active cells).

(** A live cell: occupied, and not yet expired at [now]. *)
Definition live (now : Z) (cell : WindowCell.t) : Prop :=
  is_active cell = true /\ now < WindowCell.expiresAt cell.

(** ** Grid invariants *)

(** An empty slot carries the expiry timestamp 0. *)
Definition empty_at_zero (cell : WindowCell.t) : Prop :=
  WindowCell.active cell = None -> WindowCell.expiresAt cell = 0.

Definition grid_inv (cells : list WindowCell.t) : Prop :=
  Forall empty_at_zero cells.

(** The [id] of a cell is its index in the grid. *)
Definition ids_ok (cells : list WindowCell.t) : Prop :=
  forall i cell, cells !! i = Some cell -> WindowCell.id cell = i.

(** What every reachable state satisfies. *)
Definition state_inv (s : State) : Prop :=
  grid_inv (grid s) /\ ids_ok (grid s)
  /\ length (grid s) = CELL_COUNT /\ 0 <= doorMilestonesAwarded s.

(** A string of exactly two characters. *)
Definition two_chars (s : string) : bool :=
  match s with
  | String _ (String _ EmptyString) => true
  | _ => false
  end.

(** The number that a two-character field of the display denotes. *)
Definition fieldValue (s : string) : option Z :=
  option_map Z.of_int (NilZero.int_of_string s).

(** Every occupant of the grid is an item of [SPAWNABLES] and the door
    drop, if any, carries the glyph and points of an item of
    [DOOR_ITEMS]. *)
Definition from_catalog (cell : WindowCell.t) : Prop :=
  forall item, WindowCell.active cell = Some item -> item ∈ SPAWNABLES.

Definition catalog_inv (s : State) : Prop :=
  Forall from_catalog (grid s)
  /\ (forall d, doorDrop s = Some d ->
        DoorItem.mk (DoorDrop.emoji d) (DoorDrop.points d) ∈ DOOR_ITEMS).

(** ** Sample sessions *)

(** An active game at elapsed time 0 (day theme) with the given grid,
    score and door drop. *)
Definition activeState (g : list WindowCell.t) (score : Z)
    (d : option DoorDrop.t) : State :=
  mkState game g score false d 0 0 1 0 None.

(** The clover (3 points) sits in slot 4 until 5000. *)
Definition cloverGrid : list WindowCell.t :=
  <[ 4%nat := WindowCell.mk 4 (Some (Spawnable.mk good "🍀" 3)) 5000 ]>
    createInitialGrid.

(** The bomb sits in slot 7 until 9000. *)
Definition bombGrid : list WindowCell.t :=
  <[ 7%nat := WindowCell.mk 7 (Some (Spawnable.mk bomb "💣" 0)) 9000 ]>
    createInitialGrid.

(** The score has jumped from 40 to 105 and no milestone is awarded yet. *)
Definition jumpState : State := activeState createInitialGrid 105 None.

(** A game left at 10000 for the instructions and entered again: a clover
    in slot 4 and a key at the door, 12 seconds elapsed. *)
Definition pausedState : State :=
  mkState game cloverGrid 53 false (Some (DoorDrop.mk "🔑" 8 11000)) 1 12 1 0
    (Some 10000).

(** A door drop that expired at 8000 and has not been swept. *)
Definition staleDoorState : State :=
  activeState createInitialGrid 50 (Some (DoorDrop.mk "🎁" 10 8000)).

(** A run from the mount of the component: the welcome screen at 0, the
    instructions, the start of the game at 1000, and the spawn tick of
    2000 that puts the clover in slot 4 with a time to live of 5000. *)
Definition cloverRun : State :=
  spawnTick 2000 (4 # 10) (1 # 8) (2000 # 3001)
    (runKeyEffect 1000
       (viewEffect 1000
          (startGame (openInstructions (viewEffect 0 (initialState 0)))))).

(** ** Derived values of the render *)

(** [grid.some ((c) => c.active?.kind === 'bomb')] *)
Definition bombSeen (cells : list WindowCell.t) : bool :=
  existsb (fun c => match WindowCell.active c with
                    | Some item => is_bomb (Spawnable.kind item)
                    | None => false
                    end) cells.

(** [String (n)] on an integer: its decimal numeral, with a minus sign
    when negative. *)
Definition numberToString (n : Z) : string :=
  NilZero.string_of_int (Z.to_int n).

Fixpoint repeatChar (c : Ascii.ascii) (n : nat) : string :=
  match n with
  | O => EmptyString
  | S n' => String c (repeatChar c n')
  end.

(** [s.padStart (targetLength, c)] with a pad string of one character. *)
Definition padStart (targetLength : nat) (c : Ascii.ascii) (s : string) : string :=
  (repeatChar c (targetLength - String.length s) ++ s)%string.

Definition pad2 (n : Z) : string := padStart 2 "0" (numberToString n).

Definition formatHMS (totalSeconds : Z) : string :=
  let hours := totalSeconds / 3600 in
  let minutes := Z.rem totalSeconds 3600 / 60 in
  let seconds := Z.rem totalSeconds 60 in
  (pad2 hours ++ ":" ++ pad2 minutes ++ ":" ++ pad2 seconds)%string.

(** * Properties *)

(** ** Random draws stay in range *)

Lemma randomInt_range (u : Q) (n : Z) :
  unit_draw u -> 0 < n -> 0 <= randomInt u n < n.
Proof.
  intros [H0 H1] Hn. unfold randomInt.
  assert (Hn' : (0 < inject_Z n)%Q) by (change (inject_Z 0 < inject_Z n)%Q; rewrite <- Zlt_Qlt; exact Hn).
  split.
  - change 0 with (Qfloor (inject_Z 0)). apply Qfloor_resp_le.
    apply Qmult_le_0_compat; [exact H0 | apply Qlt_le_weak; exact Hn'].
  - rewrite Zlt_Qlt.
    apply Qle_lt_trans with (y := (u * inject_Z n)%Q); [apply Qfloor_le |].
    rewrite <- (Qmult_1_l (inject_Z n)) at 2.
    apply Qmult_lt_compat_r; assumption.
Qed.

Lemma randomIntRange_range (u : Q) (lo hi : Z) :
  unit_draw u -> lo <= hi -> lo <= randomIntRange u lo hi <= hi.
Proof.
  intros Hu Hle. unfold randomIntRange.
  pose proof (randomInt_range u (hi - lo + 1) Hu ltac:(lia)). lia.
Qed.

Lemma at_index_Some {A : Type} (arr : list A) (i : Z) :
  0 <= i < Z.of_nat (length arr) -> is_Some (at_index arr i).
Proof.
  intros Hi. unfold at_index.
  destruct (Z.ltb_spec i 0) as [?|_]; [lia |].
  apply lookup_lt_is_Some. lia.
Qed.

Lemma at_index_inv {A : Type} (arr : list A) (i : Z) (x : A) :
  at_index arr i = Some x -> arr !! Z.to_nat i = Some x.
Proof.
  unfold at_index. destruct (i <? 0); [discriminate | trivial].
Qed.

Lemma pickDoorItem_Some (u : Q) : unit_draw u -> is_Some (pickDoorItem u).
Proof.
  intros Hu. apply at_index_Some. apply randomInt_range; [exact Hu | ].
  simpl. lia.
Qed.

(** ** Clock and theme *)

Lemma rem2_eqb_mod2 (q : Z) : (Z.rem q 2 =? 0) = (q mod 2 =? 0).
Proof.
  apply eq_true_iff_eq. rewrite !Z.eqb_eq.
  rewrite Z.rem_divide, Z.mod_divide by lia. reflexivity.
Qed.

Lemma themeOf_mod (t : Z) :
  themeOf t = if ((t + 5) / 60) mod 2 =? 0 then day else night.
Proof. unfold themeOf. rewrite rem2_eqb_mod2. reflexivity. Qed.

(** C8: the theme at [t] elapsed seconds is day exactly when
    floor((t + 5) / 60) mod 2 is 0, and the theme repeats every 120
    seconds: theme(t) = theme(t + 120). Stated for every integer [t],
    the natural numbers among them. *)
Theorem theme_day_iff_and_period (t : Z) :
  (themeOf t = day <-> ((t + 5) / 60) mod 2 = 0)
  /\ themeOf t = themeOf (t + 120).
Proof.
  split.
  - rewrite themeOf_mod. destruct (Z.eqb_spec (((t + 5) / 60) mod 2) 0) as [E|E].
    + tauto.
    + split; [discriminate | intros; contradiction].
  - rewrite !themeOf_mod.
    replace (t + 120 + 5) with (t + 5 + 2 * 60) by lia.
    rewrite Z.div_add by lia.
    replace (((t + 5) / 60 + 2) mod 2) with (((t + 5) / 60) mod 2); [reflexivity |].
    replace ((t + 5) / 60 + 2) with ((t + 5) / 60 + 1 * 2) by lia.
    rewrite Z.mod_add by lia. reflexivity.
Qed.

(** ** Window clicks *)

Lemma view_game_is_game (s : State) : view s = game -> is_game (view s) = true.
Proof. intros ->. reflexivity. Qed.

Lemma is_bomb_false (k : EmojiKind) : k <> bomb -> is_bomb k = false.
Proof. destruct k; [reflexivity | reflexivity | congruence]. Qed.

(** What [onClickWindow] does on an occupied slot of an active game whose
    occupant is not a bomb. *)
Lemma onClickWindow_scored (s : State) (i : nat) (cell : WindowCell.t)
    (picked : Spawnable.t) :
  gameOver s = false -> view s = game ->
  grid s !! i = Some cell -> WindowCell.active cell = Some picked ->
  Spawnable.kind picked <> bomb ->
  onClickWindow i s =
    setGrid (<[ i := clearCell cell ]> (grid s))
      (setPoints (points s + themedPoints (Spawnable.points picked) (theme s)) s).
Proof.
  intros Hover Hview Hcell Hact Hkind. unfold onClickWindow, windowDelta.
  rewrite Hover, (view_game_is_game s Hview), Hcell, Hact.
  rewrite (is_bomb_false _ Hkind). reflexivity.
Qed.

(** What [onClickWindow] does on a bomb slot of an active game. *)
Lemma onClickWindow_bomb (s : State) (i : nat) (cell : WindowCell.t)
    (picked : Spawnable.t) :
  gameOver s = false -> view s = game ->
  grid s !! i = Some cell -> WindowCell.active cell = Some picked ->
  Spawnable.kind picked = bomb ->
  onClickWindow i s =
    setGrid (map (fun c => if (WindowCell.id c =? i)%nat then clearCell c else c)
               (grid s))
      (setGameOver true s).
Proof.
  intros Hover Hview Hcell Hact Hkind. unfold onClickWindow.
  rewrite Hover, (view_game_is_game s Hview), Hcell, Hact, Hkind. reflexivity.
Qed.

(** C6: in an active game, clicking a slot whose occupant is not a bomb
    and has base points [p] adds [p] to the score when the theme is day
    and subtracts [p] when the theme is night, and clears the slot. *)
Theorem click_non_bomb_adds_themed_points (s : State) (i : nat)
    (cell : WindowCell.t) (picked : Spawnable.t) :
  gameOver s = false -> view s = game ->
  grid s !! i = Some cell -> WindowCell.active cell = Some picked ->
  Spawnable.kind picked <> bomb ->
  (theme s = day ->
     points (onClickWindow i s) = points s + Spawnable.points picked)
  /\ (theme s = night ->
     points (onClickWindow i s) = points s - Spawnable.points picked)
  /\ (exists cell', grid (onClickWindow i s) !! i = Some cell'
                    /\ WindowCell.active cell' = None)
  /\ gameOver (onClickWindow i s) = false.
Proof.
  intros Hover Hview Hcell Hact Hkind.
  rewrite (onClickWindow_scored s i cell picked) by assumption.
  simpl. repeat split.
  - intros ->. reflexivity.
  - intros ->. simpl. lia.
  - exists (clearCell cell). split; [| reflexivity].
    apply list_lookup_insert_eq. eapply lookup_lt_Some; eassumption.
  - exact Hover.
Qed.

(** C3: in an active game, clicking a slot whose occupant is a bomb sets
    [gameOver], leaves the score as it is and clears the occupant of the
    slot. The cell carries its index as [id], as every cell of the grid
    does. *)
Theorem click_bomb_ends_game (s : State) (i : nat) (cell : WindowCell.t)
    (picked : Spawnable.t) :
  gameOver s = false -> view s = game ->
  grid s !! i = Some cell -> WindowCell.id cell = i ->
  WindowCell.active cell = Some picked -> Spawnable.kind picked = bomb ->
  gameOver (onClickWindow i s) = true
  /\ points (onClickWindow i s) = points s
  /\ (exists cell', grid (onClickWindow i s) !! i = Some cell'
                    /\ WindowCell.active cell' = None).
Proof.
  intros Hover Hview Hcell Hid Hact Hkind.
  rewrite (onClickWindow_bomb s i cell picked) by assumption.
  simpl. repeat split.
  exists (clearCell cell). split; [| reflexivity].
  rewrite list_lookup_fmap, Hcell. simpl.
  rewrite Hid, Nat.eqb_refl. reflexivity.
Qed.

(** ** Restart *)

Lemma createInitialGrid_lookup (i : nat) (cell : WindowCell.t) :
  createInitialGrid !! i = Some cell -> cell = WindowCell.mk i None 0.
Proof.
  unfold createInitialGrid. intros H.
  change (map ?f ?l) with (f <$> l) in H.
  rewrite list_lookup_fmap in H.
  destruct (seq 0 CELL_COUNT !! i) as [j|] eqn:E; [| discriminate].
  apply lookup_seq in E. destruct E as [-> _]. simpl in H. congruence.
Qed.

(** C9: [restart], with the effect that its new run key triggers, resets
    the score to 0, [gameOver] to false, the door drop to none, the
    awarded milestones to 0, every one of the ten grid slots to empty,
    the elapsed seconds to 0 and the start reference to the current
    time. *)
Theorem restart_resets_session (now : Z) (s : State) :
  points (restartRun now s) = 0
  /\ gameOver (restartRun now s) = false
  /\ doorDrop (restartRun now s) = None
  /\ doorMilestonesAwarded (restartRun now s) = 0
  /\ length (grid (restartRun now s)) = CELL_COUNT
  /\ (forall i cell, grid (restartRun now s) !! i = Some cell ->
        WindowCell.active cell = None)
  /\ elapsedSeconds (restartRun now s) = 0
  /\ startedAt (restartRun now s) = now
  /\ runKey (restartRun now s) = runKey s + 1.
Proof.
  simpl. repeat split.
  intros i cell H. apply createInitialGrid_lookup in H. subst cell. reflexivity.
Qed.

(** ** Pause and resume *)

Lemma viewEffect_resume (now p : Z) (s : State) :
  view s = game -> pausedAt s = Some p -> viewEffect now s = resume now p s.
Proof. intros Hview Hp. unfold viewEffect. rewrite Hview, Hp. reflexivity. Qed.

Lemma resume_grid (now p : Z) (s : State) :
  0 <= now - p -> grid (resume now p s) = map (shiftCell (now - p)) (grid s).
Proof.
  intros Hd. unfold resume. destruct (Z.ltb_spec 0 (now - p)) as [Hpos|Hle].
  - reflexivity.
  - simpl. replace (now - p) with 0 by lia.
    induction (grid s) as [|c l IH]; [reflexivity |].
    simpl. rewrite <- IH. f_equal.
    unfold shiftCell. destruct c as [ci [a|] e]; simpl; [| reflexivity].
    f_equal. lia.
Qed.

Lemma resume_doorDrop (now p : Z) (s : State) :
  0 <= now - p -> doorDrop (resume now p s) = shiftDoor (now - p) (doorDrop s).
Proof.
  intros Hd. unfold resume. destruct (Z.ltb_spec 0 (now - p)) as [Hpos|Hle].
  - reflexivity.
  - simpl. replace (now - p) with 0 by lia.
    destruct (doorDrop s) as [[e pt x]|]; simpl; [| reflexivity].
    do 2 f_equal. lia.
Qed.

Lemma resume_frame (now p : Z) (s : State) :
  points (resume now p s) = points s
  /\ gameOver (resume now p s) = gameOver s
  /\ doorMilestonesAwarded (resume now p s) = doorMilestonesAwarded s
  /\ elapsedSeconds (resume now p s) = elapsedSeconds s
  /\ startedAt (resume now p s) = now - elapsedSeconds s * 1000
  /\ pausedAt (resume now p s) = None.
Proof. unfold resume. destruct (0 <? now - p); simpl; repeat split. Qed.

(** C4: when the game view is entered again after a pause that lasted
    [now - p] milliseconds, every occupied grid slot and the door drop,
    if there is one, get that duration added to their [expiresAt]; the
    occupants, the empty slots, the score, [gameOver] and the awarded
    milestones stay as they are; and the start reference is set so that
    the elapsed seconds computed at the instant of the resume are the
    ones shown at the pause, and [d] milliseconds later they have grown
    by floor(d / 1000). *)
Theorem resume_shifts_expiries (now p : Z) (s : State) :
  view s = game -> pausedAt s = Some p -> 0 <= now - p ->
  let delta := now - p in
  let s' := viewEffect now s in
  length (grid s') = length (grid s)
  /\ (forall i cell, grid s !! i = Some cell ->
        WindowCell.active cell <> None ->
        exists cell', grid s' !! i = Some cell'
          /\ WindowCell.expiresAt cell' = WindowCell.expiresAt cell + delta
          /\ WindowCell.active cell' = WindowCell.active cell
          /\ WindowCell.id cell' = WindowCell.id cell)
  /\ (forall i cell, grid s !! i = Some cell ->
        WindowCell.active cell = None -> grid s' !! i = Some cell)
  /\ (forall d, doorDrop s = Some d ->
        doorDrop s' = Some (DoorDrop.mk (DoorDrop.emoji d) (DoorDrop.points d)
                              (DoorDrop.expiresAt d + delta)))
  /\ (doorDrop s = None -> doorDrop s' = None)
  /\ points s' = points s
  /\ gameOver s' = gameOver s
  /\ doorMilestonesAwarded s' = doorMilestonesAwarded s
  /\ startedAt s' = now - elapsedSeconds s * 1000
  /\ elapsedSeconds (timerTick now s') = elapsedSeconds s
  /\ (forall d, elapsedSeconds (timerTick (now + d) s')
                = elapsedSeconds s + d / 1000).
Proof.
  intros Hview Hp Hd delta s'. subst delta s'.
  rewrite (viewEffect_resume now p s Hview Hp).
  destruct (resume_frame now p s) as (Hpts & Hover & Hm & He & Hst & _).
  rewrite (resume_grid now p s Hd), (resume_doorDrop now p s Hd).
  repeat split; try assumption.
  - apply length_map.
  - intros i cell Hcell Hact.
    exists (shiftCell (now - p) cell). split.
    + change (map ?f ?l) with (f <$> l). rewrite list_lookup_fmap, Hcell.
      reflexivity.
    + unfold shiftCell. destruct (WindowCell.active cell) eqn:E;
        [simpl; rewrite ?E; repeat split | congruence].
  - intros i cell Hcell Hact.
    change (map ?f ?l) with (f <$> l). rewrite list_lookup_fmap, Hcell.
    simpl. unfold shiftCell. rewrite Hact. reflexivity.
  - intros d ->. reflexivity.
  - intros ->. reflexivity.
  - unfold timerTick. simpl. rewrite Hst.
    replace (now - (now - elapsedSeconds s * 1000)) with (elapsedSeconds s * 1000) by lia.
    apply Z.div_mul. lia.
  - intros d. unfold timerTick. simpl. rewrite Hst.
    replace (now + d - (now - elapsedSeconds s * 1000))
      with (elapsedSeconds s * 1000 + d) by lia.
    rewrite Z.div_add_l by lia. reflexivity.
Qed.

(** ** Door milestones *)

Lemma milestoneEffect_idle (now : Z) (u1 u2 : Q) (s : State) :
  doorMilestones s <= doorMilestonesAwarded s -> milestoneEffect now u1 u2 s = s.
Proof.
  intros Hle. unfold milestoneEffect.
  destruct (negb (is_game (view s))); [reflexivity |].
  destruct (gameOver s); [reflexivity |].
  destruct (doorMilestones s <=? 0); [reflexivity |].
  destruct (Z.leb_spec (doorMilestones s) (doorMilestonesAwarded s)); [reflexivity | lia].
Qed.

(** C2: the milestone check computes floor(score / 50). In an active
    game, whenever that count exceeds the awarded milestones, one door
    drop is armed (a catalog item with a time to live) and the awarded
    milestones are set to the count itself, whatever the number of
    thresholds crossed; the check run again on the result arms nothing.
    The rest of the state is not touched. *)
Theorem milestone_check_arms_one_drop (now : Z) (u1 u2 : Q) (s : State) :
  view s = game -> gameOver s = false -> unit_draw u1 ->
  0 <= doorMilestonesAwarded s ->
  doorMilestonesAwarded s < points s / 50 ->
  let s' := milestoneEffect now u1 u2 s in
  doorMilestones s = points s / 50
  /\ doorMilestonesAwarded s' = points s / 50
  /\ (exists item, pickDoorItem u1 = Some item
        /\ doorDrop s' =
             Some (DoorDrop.mk (DoorItem.emoji item) (DoorItem.points item)
                     (now + randomIntRange u2 TTL_MIN_MS TTL_MAX_MS)))
  /\ (forall now' v1 v2, milestoneEffect now' v1 v2 s' = s')
  /\ points s' = points s /\ grid s' = grid s /\ gameOver s' = false.
Proof.
  intros Hview Hover Hu Hnonneg Hlt s'.
  destruct (pickDoorItem_Some u1 Hu) as [item Hitem].
  assert (Hs' : s' =
    setDoorDrop
      (Some (DoorDrop.mk (DoorItem.emoji item) (DoorItem.points item)
               (now + randomIntRange u2 TTL_MIN_MS TTL_MAX_MS)))
      (setDoorMilestonesAwarded (doorMilestones s) s)).
  { subst s'. unfold milestoneEffect.
    rewrite (view_game_is_game s Hview), Hover, Hitem. simpl.
    unfold doorMilestones.
    destruct (Z.leb_spec (points s / 50) 0); [lia |].
    destruct (Z.leb_spec (points s / 50) (doorMilestonesAwarded s)); [lia |].
    reflexivity. }
  rewrite Hs'. simpl. repeat split; try assumption.
  - exists item. split; [exact Hitem | reflexivity].
  - intros now' v1 v2. apply milestoneEffect_idle. unfold doorMilestones. simpl. lia.
Qed.

(** ** Grid spawn *)

Lemma emptyIndicesFrom_elem (now : Z) (cells : list WindowCell.t) :
  forall (i j : nat), j ∈ emptyIndicesFrom now i cells ->
    exists k cell, j = (i + k)%nat /\ cells !! k = Some cell
                   /\ available now cell = true.
Proof.
  induction cells as [|c rest IH]; intros i j Hj; simpl in Hj.
  - apply elem_of_nil in Hj. contradiction.
  - assert (Hrest : j ∈ emptyIndicesFrom now (S i) rest ->
      exists k cell, j = (i + k)%nat /\ (c :: rest) !! k = Some cell
                     /\ available now cell = true).
    { intros H. destruct (IH _ _ H) as (k & cell & -> & Hk & Hav).
      exists (S k), cell. repeat split; [lia | exact Hk | exact Hav]. }
    destruct (available now c) eqn:Hc.
    + apply elem_of_cons in Hj. destruct Hj as [-> | Hj]; [| auto].
      exists 0%nat, c. repeat split; [lia | exact Hc].
    + auto.
Qed.

Lemma emptyIndicesFrom_nil (now : Z) (cells : list WindowCell.t) :
  forall i : nat, Forall (fun c => available now c = false) cells ->
    emptyIndicesFrom now i cells = [].
Proof.
  induction cells as [|c rest IH]; intros i Hall; [reflexivity |].
  inversion Hall as [|? ? Hc Hrest]; subst. simpl. rewrite Hc. auto.
Qed.

Lemma live_not_available (now : Z) (cell : WindowCell.t) :
  live now cell -> available now cell = false.
Proof.
  intros [Hact Hexp]. unfold available. rewrite Hact. simpl.
  apply Z.leb_gt. exact Hexp.
Qed.

Lemma occupied_insert_le (cells : list WindowCell.t) :
  forall (i : nat) (cell : WindowCell.t),
    (occupied (<[ i := cell ]> cells) <= S (occupied cells))%nat.
Proof.
  unfold occupied.
  induction cells as [|c rest IH]; intros i cell; [simpl; lia |].
  destruct i as [|i]; simpl.
  - destruct (is_active cell), (is_active c); simpl; lia.
  - specialize (IH i cell). destruct (is_active c); simpl; lia.
Qed.

(** The target of a spawn, when one is written: an index of the grid
    whose cell passes the availability test. *)
Lemma spawnGrid_cases (now : Z) (u1 u2 u3 : Q) (prev : list WindowCell.t) :
  spawnGrid now u1 u2 u3 prev = prev
  \/ exists target old,
       prev !! target = Some old /\ available now old = true
       /\ spawnGrid now u1 u2 u3 prev =
            <[ target :=
                 WindowCell.mk (WindowCell.id old)
                   (at_index SPAWNABLES
                      (randomInt u2 (Z.of_nat (length SPAWNABLES))))
                   (now + randomIntRange u3 TTL_MIN_MS TTL_MAX_MS) ]> prev.
Proof.
  unfold spawnGrid.
  destruct (length (emptyIndicesFrom now 0 prev) =? 0)%nat; [left; reflexivity |].
  destruct (at_index (emptyIndicesFrom now 0 prev) _) as [target|] eqn:Ht;
    [| left; reflexivity].
  destruct (prev !! target) as [old|] eqn:Hold; [| left; reflexivity].
  right. exists target, old. repeat split; [exact Hold | ].
  apply at_index_inv, list_elem_of_lookup_2, emptyIndicesFrom_elem in Ht.
  destruct Ht as (k & cell & -> & Hk & Hav). simpl in Hold. congruence.
Qed.

Lemma length_spawnGrid (now : Z) (u1 u2 u3 : Q) (prev : list WindowCell.t) :
  length (spawnGrid now u1 u2 u3 prev) = length prev.
Proof.
  destruct (spawnGrid_cases now u1 u2 u3 prev)
    as [-> | (target & old & _ & _ & ->)]; [reflexivity | apply length_insert].
Qed.

(** C5: one spawn tick raises the number of occupied slots by at most 1,
    leaves every live slot (occupied, with [expiresAt] in the future) as
    it is, and returns the grid as it is when no slot is available. *)
Theorem spawn_tick_at_most_one (now : Z) (u1 u2 u3 : Q)
    (prev : list WindowCell.t) :
  (occupied (spawnGrid now u1 u2 u3 prev) <= S (occupied prev))%nat
  /\ (forall i cell, prev !! i = Some cell -> live now cell ->
        spawnGrid now u1 u2 u3 prev !! i = Some cell)
  /\ (Forall (fun c => available now c = false) prev ->
        spawnGrid now u1 u2 u3 prev = prev)
  /\ length (spawnGrid now u1 u2 u3 prev) = length prev.
Proof.
  repeat split.
  - destruct (spawnGrid_cases now u1 u2 u3 prev)
      as [-> | (target & old & _ & _ & ->)]; [lia | apply occupied_insert_le].
  - intros i cell Hcell Hlive.
    destruct (spawnGrid_cases now u1 u2 u3 prev)
      as [-> | (target & old & Hold & Hav & ->)]; [exact Hcell |].
    rewrite list_lookup_insert_ne; [exact Hcell |].
    intros ->. apply live_not_available in Hlive. congruence.
  - intros Hall. unfold spawnGrid.
    rewrite (emptyIndicesFrom_nil now prev 0 Hall). reflexivity.
  - apply length_spawnGrid.
Qed.

Lemma emptyIndicesFrom_complete (now : Z) (cells : list WindowCell.t) :
  forall (i k : nat) (cell : WindowCell.t),
    cells !! k = Some cell -> available now cell = true ->
    (i + k)%nat ∈ emptyIndicesFrom now i cells.
Proof.
  induction cells as [|c rest IH]; intros i k cell Hk Hav; [discriminate |].
  destruct k as [|k]; simpl in *.
  - injection Hk as ->. rewrite Hav, Nat.add_0_r. apply elem_of_cons. left. reflexivity.
  - replace (i + S k)%nat with (S i + k)%nat by lia.
    destruct (available now c); [apply elem_of_cons; right |]; eapply IH; eassumption.
Qed.

(** With draws in the unit interval and an available slot, the tick does
    populate one available slot with an item of the catalog. *)
Lemma spawnGrid_populates (now : Z) (u1 u2 u3 : Q) (prev : list WindowCell.t)
    (k : nat) (cell : WindowCell.t) :
  unit_draw u1 -> unit_draw u2 ->
  prev !! k = Some cell -> available now cell = true ->
  exists target old item,
    prev !! target = Some old /\ available now old = true
    /\ item ∈ SPAWNABLES
    /\ spawnGrid now u1 u2 u3 prev =
         <[ target := WindowCell.mk (WindowCell.id old) (Some item)
                        (now + randomIntRange u3 TTL_MIN_MS TTL_MAX_MS) ]> prev.
Proof.
  intros Hu1 Hu2 Hk Hav.
  pose proof (emptyIndicesFrom_complete now prev 0 k cell Hk Hav) as Hin.
  unfold spawnGrid.
  destruct (emptyIndicesFrom now 0 prev) as [|e es] eqn:He;
    [apply elem_of_nil in Hin; contradiction |].
  change (length (e :: es) =? 0)%nat with false. cbv iota.
  destruct (at_index_Some (e :: es)
              (randomInt u1 (Z.of_nat (length (e :: es))))) as [target Ht].
  { apply randomInt_range; [exact Hu1 | simpl; lia]. }
  rewrite Ht.
  assert (Htin : target ∈ emptyIndicesFrom now 0 prev).
  { rewrite He. eapply list_elem_of_lookup_2, at_index_inv, Ht. }
  apply emptyIndicesFrom_elem in Htin.
  destruct Htin as (j & old & -> & Hold & Hoav).
  change (0 + j)%nat with j. rewrite Hold.
  destruct (at_index_Some SPAWNABLES
              (randomInt u2 (Z.of_nat (length SPAWNABLES)))) as [item Hitem].
  { apply randomInt_range; [exact Hu2 | simpl; lia]. }
  rewrite Hitem. exists j, old, item. repeat split; try assumption.
  eapply list_elem_of_lookup_2, at_index_inv, Hitem.
Qed.

(** ** The invariant of empty slots *)

Lemma grid_inv_createInitialGrid : grid_inv createInitialGrid.
Proof.
  apply Forall_lookup_2. intros i cell H.
  apply createInitialGrid_lookup in H. subst cell. intros _. reflexivity.
Qed.

Lemma grid_inv_insert (cells : list WindowCell.t) (i : nat) (cell : WindowCell.t) :
  grid_inv cells -> empty_at_zero cell -> grid_inv (<[ i := cell ]> cells).
Proof. intros Hinv Hcell. apply Forall_insert; assumption. Qed.

Lemma grid_inv_map (f : WindowCell.t -> WindowCell.t) (cells : list WindowCell.t) :
  (forall c, empty_at_zero c -> empty_at_zero (f c)) ->
  grid_inv cells -> grid_inv (map f cells).
Proof.
  intros Hf Hinv. unfold grid_inv in *.
  induction Hinv as [|c l Hc Hl IH]; simpl; constructor; auto.
Qed.

Lemma empty_at_zero_clearCell (cell : WindowCell.t) : empty_at_zero (clearCell cell).
Proof. intros _. reflexivity. Qed.

Lemma empty_at_zero_sweepCell (now : Z) (cell : WindowCell.t) :
  empty_at_zero cell -> empty_at_zero (sweepCell now cell).
Proof.
  intros H. unfold sweepCell. destruct (WindowCell.active cell) eqn:E; [| exact H].
  destruct (WindowCell.expiresAt cell <=? now);
    [apply empty_at_zero_clearCell | exact H].
Qed.

Lemma empty_at_zero_shiftCell (delta : Z) (cell : WindowCell.t) :
  empty_at_zero cell -> empty_at_zero (shiftCell delta cell).
Proof.
  intros H. unfold shiftCell. destruct (WindowCell.active cell) eqn:E; [| exact H].
  unfold empty_at_zero. simpl. congruence.
Qed.

Lemma grid_inv_spawnGrid (now : Z) (u1 u2 u3 : Q) (prev : list WindowCell.t) :
  unit_draw u2 -> grid_inv prev -> grid_inv (spawnGrid now u1 u2 u3 prev).
Proof.
  intros Hu2 Hinv.
  destruct (spawnGrid_cases now u1 u2 u3 prev)
    as [-> | (target & old & _ & _ & ->)]; [exact Hinv |].
  apply grid_inv_insert; [exact Hinv |].
  destruct (at_index_Some SPAWNABLES
              (randomInt u2 (Z.of_nat (length SPAWNABLES)))) as [item Hitem].
  { apply randomInt_range; [exact Hu2 | simpl; lia]. }
  unfold empty_at_zero. cbn [WindowCell.active]. rewrite Hitem. discriminate.
Qed.

Lemma grid_inv_onClickWindow (i : nat) (s : State) :
  grid_inv (grid s) -> grid_inv (grid (onClickWindow i s)).
Proof.
  intros Hinv. unfold onClickWindow.
  destruct (gameOver s); [exact Hinv |].
  destruct (negb (is_game (view s))); [exact Hinv |].
  destruct (grid s !! i) as [cell|]; [| exact Hinv].
  destruct (WindowCell.active cell) as [picked|]; [| exact Hinv].
  destruct (is_bomb (Spawnable.kind picked)); simpl.
  - apply grid_inv_map; [| exact Hinv].
    intros c Hc. destruct (WindowCell.id c =? i)%nat;
      [apply empty_at_zero_clearCell | exact Hc].
  - apply grid_inv_insert; [exact Hinv | apply empty_at_zero_clearCell].
Qed.

Lemma grid_inv_viewEffect (now : Z) (s : State) :
  grid_inv (grid s) -> grid_inv (grid (viewEffect now s)).
Proof.
  intros Hinv. unfold viewEffect, resume.
  destruct (negb (is_game (view s))), (pausedAt s) as [p|]; simpl; try exact Hinv.
  destruct (0 <? now - p); simpl; [| exact Hinv].
  apply grid_inv_map; [apply empty_at_zero_shiftCell | exact Hinv].
Qed.

Lemma empty_cell_available (now : Z) (cell : WindowCell.t) :
  WindowCell.active cell = None -> available now cell = true.
Proof. intros H. unfold available, is_active. rewrite H. reflexivity. Qed.

(** C10: the grid operations keep the invariant that a slot without an
    occupant has [expiresAt] equal to 0: it holds of the initial grid and
    is kept by the spawn tick (for every draw [u2] of [Math.random] that
    picks the catalog item), the expiry sweep, a window click and the
    expiry shift of a resume; and a slot without an occupant passes the
    availability test of the spawn tick at every instant. *)
Theorem grid_operations_keep_empty_at_zero :
  grid_inv createInitialGrid
  /\ (forall now u1 u2 u3 g, unit_draw u2 ->
        grid_inv g -> grid_inv (spawnGrid now u1 u2 u3 g))
  /\ (forall now s, grid_inv (grid s) -> grid_inv (grid (cleanupTick now s)))
  /\ (forall i s, grid_inv (grid s) -> grid_inv (grid (onClickWindow i s)))
  /\ (forall now s, grid_inv (grid s) -> grid_inv (grid (viewEffect now s)))
  /\ (forall now g cell, grid_inv g -> cell ∈ g ->
        WindowCell.active cell = None ->
        WindowCell.expiresAt cell = 0 /\ available now cell = true).
Proof.
  split; [exact grid_inv_createInitialGrid |].
  split; [intros now u1 u2 u3 g Hu2; apply grid_inv_spawnGrid; exact Hu2 |].
  split; [intros now s Hinv; simpl; apply grid_inv_map;
          [apply empty_at_zero_sweepCell | exact Hinv] |].
  split; [exact grid_inv_onClickWindow |].
  split; [exact grid_inv_viewEffect |].
  intros now g cell Hinv Hin Hact. split.
  - unfold grid_inv in Hinv. rewrite Forall_forall in Hinv. exact (Hinv cell Hin Hact).
  - apply empty_cell_available. exact Hact.
Qed.

(** ** Invariants of reachable states *)

Lemma ids_ok_createInitialGrid : ids_ok createInitialGrid.
Proof.
  intros i cell H. apply createInitialGrid_lookup in H. subst cell. reflexivity.
Qed.

Lemma ids_ok_map (f : WindowCell.t -> WindowCell.t) (cells : list WindowCell.t) :
  (forall c, WindowCell.id (f c) = WindowCell.id c) ->
  ids_ok cells -> ids_ok (map f cells).
Proof.
  intros Hf Hok i cell H. change (map f cells) with (f <$> cells) in H.
  rewrite list_lookup_fmap in H.
  destruct (cells !! i) as [c|] eqn:E; [| discriminate].
  simpl in H. injection H as <-. rewrite Hf. apply Hok. exact E.
Qed.

Lemma ids_ok_insert (cells : list WindowCell.t) (i : nat) (cell : WindowCell.t) :
  ids_ok cells -> WindowCell.id cell = i -> ids_ok (<[ i := cell ]> cells).
Proof.
  intros Hok Hid j c H. destruct (decide (i = j)) as [<- | Hne].
  - destruct (decide (i < length cells)%nat) as [Hlt | Hge].
    + rewrite list_lookup_insert_eq in H by exact Hlt. congruence.
    + rewrite list_insert_ge in H by lia. apply Hok. exact H.
  - rewrite list_lookup_insert_ne in H by exact Hne. apply Hok. exact H.
Qed.

Lemma id_sweepCell (now : Z) (c : WindowCell.t) :
  WindowCell.id (sweepCell now c) = WindowCell.id c.
Proof.
  unfold sweepCell. destruct (WindowCell.active c); [| reflexivity].
  destruct (WindowCell.expiresAt c <=? now); reflexivity.
Qed.

Lemma id_shiftCell (delta : Z) (c : WindowCell.t) :
  WindowCell.id (shiftCell delta c) = WindowCell.id c.
Proof. unfold shiftCell. destruct (WindowCell.active c); reflexivity. Qed.

Lemma ids_ok_spawnGrid (now : Z) (u1 u2 u3 : Q) (prev : list WindowCell.t) :
  ids_ok prev -> ids_ok (spawnGrid now u1 u2 u3 prev).
Proof.
  intros Hok.
  destruct (spawnGrid_cases now u1 u2 u3 prev)
    as [-> | (target & old & Hold & _ & ->)]; [exact Hok |].
  apply ids_ok_insert; [exact Hok | simpl; apply Hok; exact Hold].
Qed.

Lemma state_inv_initialState (t0 : Z) : state_inv (initialState t0).
Proof.
  repeat split; simpl;
    [apply grid_inv_createInitialGrid | apply ids_ok_createInitialGrid | lia].
Qed.

Lemma state_inv_onClickWindow (i : nat) (s : State) :
  state_inv s -> state_inv (onClickWindow i s).
Proof.
  intros (Hinv & Hok & Hlen & Hm).
  split; [apply grid_inv_onClickWindow; exact Hinv |].
  unfold onClickWindow.
  destruct (gameOver s); [repeat split; assumption |].
  destruct (negb (is_game (view s))); [repeat split; assumption |].
  destruct (grid s !! i) as [cell|] eqn:Hcell; [| repeat split; assumption].
  destruct (WindowCell.active cell) as [picked|]; [| repeat split; assumption].
  destruct (is_bomb (Spawnable.kind picked)); simpl; repeat split; try assumption.
  - apply ids_ok_map; [| exact Hok].
    intros c. destruct (WindowCell.id c =? i)%nat; reflexivity.
  - rewrite length_map. exact Hlen.
  - apply ids_ok_insert; [exact Hok | simpl; apply Hok; exact Hcell].
  - rewrite length_insert. exact Hlen.
Qed.

Lemma state_inv_viewEffect (now : Z) (s : State) :
  state_inv s -> state_inv (viewEffect now s).
Proof.
  intros (Hinv & Hok & Hlen & Hm).
  split; [apply grid_inv_viewEffect; exact Hinv |].
  unfold viewEffect, resume.
  destruct (negb (is_game (view s))), (pausedAt s) as [p|]; simpl;
    try (repeat split; assumption).
  destruct (0 <? now - p); simpl; repeat split; try assumption.
  - apply ids_ok_map; [apply id_shiftCell | exact Hok].
  - rewrite length_map. exact Hlen.
Qed.

Lemma state_inv_milestoneEffect (now : Z) (u1 u2 : Q) (s : State) :
  state_inv s -> state_inv (milestoneEffect now u1 u2 s).
Proof.
  intros Hs. pose proof Hs as (Hinv & Hok & Hlen & Hm). unfold milestoneEffect.
  destruct (negb (is_game (view s))); [exact Hs |].
  destruct (gameOver s); [exact Hs |].
  destruct (Z.leb_spec (doorMilestones s) 0); [exact Hs |].
  destruct (doorMilestones s <=? doorMilestonesAwarded s); [exact Hs |].
  destruct (pickDoorItem u1); [| exact Hs].
  repeat split; simpl; try assumption. lia.
Qed.

Lemma state_inv_restart (s : State) : state_inv (restart s).
Proof.
  repeat split; simpl;
    [apply grid_inv_createInitialGrid | apply ids_ok_createInitialGrid | lia].
Qed.

Lemma state_inv_step (s s' : State) : step s s' -> state_inv s -> state_inv s'.
Proof.
  intros Hstep Hs. destruct Hstep.
  - apply state_inv_viewEffect; exact Hs.
  - apply state_inv_milestoneEffect; exact Hs.
  - destruct Hs as (Hinv & Hok & Hlen & Hm). repeat split; simpl; try assumption.
    + apply grid_inv_spawnGrid; assumption.
    + apply ids_ok_spawnGrid; exact Hok.
    + rewrite length_spawnGrid. exact Hlen.
  - destruct Hs as (Hinv & Hok & Hlen & Hm). repeat split; simpl; try assumption.
    + apply grid_inv_map; [apply empty_at_zero_sweepCell | exact Hinv].
    + apply ids_ok_map; [apply id_sweepCell | exact Hok].
    + rewrite length_map. exact Hlen.
  - exact Hs.
  - apply state_inv_onClickWindow; exact Hs.
  - destruct Hs as (Hinv & Hok & Hlen & Hm). unfold onClickDoor.
    destruct (gameOver s); [repeat split; assumption |].
    destruct (negb (is_game (view s))); [repeat split; assumption |].
    destruct (doorDrop s) as [prev|]; [| repeat split; assumption].
    destruct (DoorDrop.expiresAt prev <=? now); repeat split; assumption.
  - apply state_inv_restart.
  - exact Hs.
  - apply (state_inv_restart s).
  - exact Hs.
  - exact Hs.
Qed.

Lemma reachable_state_inv (s : State) : reachable s -> state_inv s.
Proof.
  induction 1 as [t0 | s s' _ IH Hstep];
    [apply state_inv_initialState | exact (state_inv_step s s' Hstep IH)].
Qed.

(** In every reachable state a cell carries its index as [id], which is
    what the [id] comparison of the bomb branch of [onClickWindow] relies
    on. *)
Lemma reachable_ids_ok (s : State) (i : nat) (cell : WindowCell.t) :
  reachable s -> grid s !! i = Some cell -> WindowCell.id cell = i.
Proof.
  intros Hr Hcell. destruct (reachable_state_inv s Hr) as (_ & Hok & _).
  exact (Hok i cell Hcell).
Qed.

(** ** Clicks on slots without a live occupant *)

(** A click on a slot without an occupant, or outside the grid, changes
    nothing. *)
Lemma onClickWindow_empty (s : State) (i : nat) :
  (forall cell, grid s !! i = Some cell -> WindowCell.active cell = None) ->
  onClickWindow i s = s.
Proof.
  intros H. unfold onClickWindow.
  destruct (gameOver s); [reflexivity |].
  destruct (negb (is_game (view s))); [reflexivity |].
  destruct (grid s !! i) as [cell|]; [| reflexivity].
  rewrite (H cell eq_refl). reflexivity.
Qed.

Lemma reachable_cloverRun : reachable cloverRun.
Proof.
  unfold cloverRun.
  eapply reachable_step; [| apply step_spawn].
  - eapply reachable_step; [| apply step_runKeyEffect].
    eapply reachable_step; [| apply step_viewEffect].
    eapply reachable_step; [| apply step_startGame].
    eapply reachable_step; [| apply step_openInstructions].
    eapply reachable_step; [| apply step_viewEffect].
    apply reachable_init.
  - reflexivity.
  - reflexivity.
  - split; [discriminate | reflexivity].
  - split; [discriminate | reflexivity].
  - split; [discriminate | reflexivity].
Qed.

(** C1 at the run [cloverRun]: the clover of slot 4 expires at 7000 and
    the next sweep has not run; a window click at 7100 is not a no-op, it
    adds the 3 points and clears the slot. [onClickWindow] reads no clock
    and tests only the presence of the occupant. *)
Theorem expired_window_click_still_scores :
  reachable cloverRun
  /\ view cloverRun = game /\ gameOver cloverRun = false
  /\ theme cloverRun = day /\ points cloverRun = 0
  /\ grid cloverRun !! 4%nat
       = Some (WindowCell.mk 4 (Some (Spawnable.mk good "🍀" 3)) 7000)
  /\ 7000 <= 7100
  /\ points (onClickWindow 4 cloverRun) = 3
  /\ grid (onClickWindow 4 cloverRun) !! 4%nat = Some (WindowCell.mk 4 None 0)
  /\ onClickWindow 4 cloverRun <> cloverRun.
Proof.
  split; [exact reachable_cloverRun |].
  do 7 (split; [vm_compute; congruence |]).
  split; [vm_compute; reflexivity |].
  intros H. apply (f_equal points) in H. vm_compute in H. discriminate.
Qed.

(** ** Door clicks *)

(** C7, as the code has it: without a door drop a door click changes
    nothing; on a drop whose [expiresAt] has passed it leaves the score
    and the whole state but the door as they are, and in an active game
    it removes the drop; and no door click changes [gameOver]. *)
Theorem door_click_without_live_drop (now : Z) (s : State) :
  (doorDrop s = None -> onClickDoor now s = s)
  /\ (forall d, doorDrop s = Some d -> DoorDrop.expiresAt d <= now ->
        onClickDoor now s
        = (if gameOver s || negb (is_game (view s)) then s
           else setDoorDrop None s)
        /\ points (onClickDoor now s) = points s
        /\ grid (onClickDoor now s) = grid s)
  /\ gameOver (onClickDoor now s) = gameOver s.
Proof.
  split; [| split].
  - intros H. unfold onClickDoor. rewrite H.
    destruct (gameOver s), (negb (is_game (view s))); reflexivity.
  - intros d Hd Hexp.
    assert (E : onClickDoor now s
                = if gameOver s || negb (is_game (view s)) then s
                  else setDoorDrop None s).
    { unfold onClickDoor. rewrite Hd.
      destruct (gameOver s), (negb (is_game (view s))); try reflexivity.
      destruct (Z.leb_spec (DoorDrop.expiresAt d) now); [reflexivity | lia]. }
    rewrite E. split; [reflexivity |].
    destruct (gameOver s || negb (is_game (view s))); split; reflexivity.
  - unfold onClickDoor.
    destruct (gameOver s) eqn:E; [exact E |].
    destruct (negb (is_game (view s))); [exact E |].
    destruct (doorDrop s) as [prev|]; [| exact E].
    destruct (DoorDrop.expiresAt prev <=? now); exact E.
Qed.

(** C7 fails as stated at [staleDoorState]: the drop expired at 8000, and
    the door click at 8100 removes it from the door slot. *)
Lemma door_click_removes_expired_drop :
  doorDrop staleDoorState = Some (DoorDrop.mk "🎁" 10 8000)
  /\ 8000 <= 8100
  /\ doorDrop (onClickDoor 8100 staleDoorState) = None
  /\ doorDrop (onClickDoor 8100 staleDoorState) <> doorDrop staleDoorState.
Proof. repeat split; vm_compute; congruence. Qed.

(** ** The properties at the sample sessions *)

(** The score jump from 40 to 105: one drop, awarded milestones 0 to 2. *)
Lemma milestone_check_jump_40_to_105 :
  (view jumpState = game /\ gameOver jumpState = false
   /\ doorMilestonesAwarded jumpState = 0 /\ points jumpState = 105)
  /\ doorMilestonesAwarded (milestoneEffect 200000 (1 # 2) (1 # 2) jumpState) = 2
  /\ doorDrop (milestoneEffect 200000 (1 # 2) (1 # 2) jumpState)
     = Some (DoorDrop.mk "🔑" 8 204500)
  /\ (forall now' v1 v2,
        milestoneEffect now' v1 v2 (milestoneEffect 200000 (1 # 2) (1 # 2) jumpState)
        = milestoneEffect 200000 (1 # 2) (1 # 2) jumpState).
Proof.
  split; [repeat split |].
  destruct (milestone_check_arms_one_drop 200000 (1 # 2) (1 # 2) jumpState)
    as (_ & Hm & (item & Hitem & Hdrop) & Honce & _).
  - reflexivity.
  - reflexivity.
  - split; [discriminate | reflexivity].
  - simpl. lia.
  - vm_compute. reflexivity.
  - split; [rewrite Hm; reflexivity |].
    split; [| exact Honce].
    rewrite Hdrop. vm_compute in Hitem. injection Hitem as <-. reflexivity.
Defined.

(** The bomb of slot 7 is clicked. *)
Lemma click_bomb_at_bombGrid :
  gameOver (onClickWindow 7 (activeState bombGrid 12 None)) = true
  /\ points (onClickWindow 7 (activeState bombGrid 12 None)) = 12
  /\ (exists cell', grid (onClickWindow 7 (activeState bombGrid 12 None)) !! 7%nat
                    = Some cell' /\ WindowCell.active cell' = None).
Proof.
  apply (click_bomb_ends_game (activeState bombGrid 12 None) 7
           (WindowCell.mk 7 (Some (Spawnable.mk bomb "💣" 0)) 9000)
           (Spawnable.mk bomb "💣" 0)); reflexivity.
Defined.

(** The clover of slot 4 is clicked by day (0 seconds elapsed) and by
    night (60 seconds elapsed). *)
Lemma click_clover_day_and_night :
  points (onClickWindow 4 (activeState cloverGrid 10 None)) = 10 + 3
  /\ points (onClickWindow 4 (setElapsedSeconds 60 (activeState cloverGrid 10 None)))
     = 10 - 3.
Proof.
  split.
  - apply (click_non_bomb_adds_themed_points (activeState cloverGrid 10 None) 4
             (WindowCell.mk 4 (Some (Spawnable.mk good "🍀" 3)) 5000)
             (Spawnable.mk good "🍀" 3));
      [reflexivity | reflexivity | reflexivity | reflexivity | discriminate
      | reflexivity].
  - apply (click_non_bomb_adds_themed_points
             (setElapsedSeconds 60 (activeState cloverGrid 10 None)) 4
             (WindowCell.mk 4 (Some (Spawnable.mk good "🍀" 3)) 5000)
             (Spawnable.mk good "🍀" 3));
      [reflexivity | reflexivity | reflexivity | reflexivity | discriminate
      | reflexivity].
Defined.

(** The game of [pausedState] is entered again at 12500, after a pause of
    2500 milliseconds. *)
Lemma resume_at_pausedState :
  (view pausedState = game /\ pausedAt pausedState = Some 10000
   /\ 0 <= 12500 - 10000)
  /\ (exists cell', grid (viewEffect 12500 pausedState) !! 4%nat = Some cell'
        /\ WindowCell.expiresAt cell' = 5000 + (12500 - 10000))
  /\ doorDrop (viewEffect 12500 pausedState)
     = Some (DoorDrop.mk "🔑" 8 (11000 + (12500 - 10000)))
  /\ points (viewEffect 12500 pausedState) = 53
  /\ elapsedSeconds (timerTick 12500 (viewEffect 12500 pausedState)) = 12.
Proof.
  split; [repeat split; lia |].
  destruct (resume_shifts_expiries 12500 10000 pausedState)
    as (_ & Hocc & _ & Hdoor & _ & Hpts & _ & _ & _ & Hnow & _).
  - reflexivity.
  - reflexivity.
  - lia.
  - split; [| split; [| split]].
    + destruct (Hocc 4%nat (WindowCell.mk 4 (Some (Spawnable.mk good "🍀" 3)) 5000))
        as (cell' & Hcell' & Hexp & _); [reflexivity | discriminate |].
      exists cell'. split; [exact Hcell' | exact Hexp].
    + exact (Hdoor (DoorDrop.mk "🔑" 8 11000) eq_refl).
    + exact Hpts.
    + exact Hnow.
Defined.

(** The invariant of empty slots along operations on [cloverGrid]. *)
Lemma empty_at_zero_at_cloverGrid :
  grid_inv (spawnGrid 6000 (1 # 3) (7 # 8) (1 # 2) cloverGrid)
  /\ grid_inv (grid (cleanupTick 6000 (activeState cloverGrid 0 None)))
  /\ grid_inv (grid (onClickWindow 4 (activeState cloverGrid 0 None))).
Proof.
  destruct grid_operations_keep_empty_at_zero
    as (Hinit & Hspawn & Hsweep & Hclick & _ & _).
  assert (Hclover : grid_inv cloverGrid).
  { apply Forall_insert; [exact Hinit | discriminate]. }
  split; [| split].
  - apply Hspawn; [split; [discriminate | reflexivity] | exact Hclover].
  - apply Hsweep. exact Hclover.
  - apply Hclick. exact Hclover.
Defined.

(** * Further properties of the engine *)

(** ** Theme and transition window *)

(** X8: The transition window repeats every 60 elapsed seconds. *)
Theorem transition_window_period (s : State) :
  0 <= elapsedSeconds s ->
  isThemeTransitionWindow (setElapsedSeconds (elapsedSeconds s + 60) s)
  = isThemeTransitionWindow s.
Proof.
  intros Ht. unfold isThemeTransitionWindow. simpl.
  rewrite !Z.rem_mod_nonneg by lia.
  replace (elapsedSeconds s + 60) with (elapsedSeconds s + 1 * 60) by lia.
  rewrite Z.mod_add by lia. reflexivity.
Qed.

Lemma transition_window_period_at_57 :
  0 <= 57
  /\ isThemeTransitionWindow (setElapsedSeconds 117 (activeState createInitialGrid 0 None))
     = isThemeTransitionWindow (setElapsedSeconds 57 (activeState createInitialGrid 0 None)).
Proof.
  split; [lia |].
  exact (transition_window_period
           (setElapsedSeconds 57 (activeState createInitialGrid 0 None))
           ltac:(simpl; lia)).
Defined.

(** X9: The theme differs between any two instants 60 seconds apart, and from
    one elapsed second to the next it changes exactly when the new second
    is second 55 of its minute, the one that opens the transition window:
    the window covers the first five seconds of a theme. *)
Theorem theme_flips_when_window_opens (t : Z) :
  0 <= t ->
  themeOf (t + 60) <> themeOf t
  /\ (themeOf (t + 1) <> themeOf t <-> Z.rem (t + 1) 60 = 55).
Proof.
  intros Ht. rewrite !themeOf_mod, Z.rem_mod_nonneg by lia. split.
  - destruct (Z.eqb_spec (((t + 60 + 5) / 60) mod 2) 0),
             (Z.eqb_spec (((t + 5) / 60) mod 2) 0);
      try discriminate; exfalso; Z.div_mod_to_equations; lia.
  - destruct (Z.eqb_spec (((t + 1 + 5) / 60) mod 2) 0),
             (Z.eqb_spec (((t + 5) / 60) mod 2) 0);
      split; intros H; try discriminate; try congruence;
      try (exfalso; Z.div_mod_to_equations; lia);
      Z.div_mod_to_equations; lia.
Qed.

Lemma theme_flips_at_55 :
  0 <= 54 /\ themeOf (54 + 60) <> themeOf 54 /\ themeOf (54 + 1) <> themeOf 54.
Proof.
  split; [lia |].
  destruct (theme_flips_when_window_opens 54) as [H60 [_ H1]]; [lia |].
  split; [exact H60 | apply H1; reflexivity].
Defined.

(** ** Handlers outside an active game *)

(** X6: Once the game is over, or while the view is not the game, a window
    click, a door click and the milestone check change nothing. *)
Theorem inactive_game_ignores_clicks (s : State) :
  gameOver s = true \/ view s <> game ->
  forall (i : nat) (now : Z) (u1 u2 : Q),
    onClickWindow i s = s /\ onClickDoor now s = s
    /\ milestoneEffect now u1 u2 s = s.
Proof.
  intros H i now u1 u2.
  unfold onClickWindow, onClickDoor, milestoneEffect.
  destruct H as [-> | Hview].
  - destruct (negb (is_game (view s))); repeat split; reflexivity.
  - destruct (view s); [| | congruence]; simpl;
      destruct (gameOver s); repeat split; reflexivity.
Qed.

Lemma inactive_game_ignores_clicks_after_bomb :
  gameOver (onClickWindow 7 (activeState bombGrid 12 None)) = true
  /\ onClickWindow 4 (onClickWindow 7 (activeState bombGrid 12 None))
     = onClickWindow 7 (activeState bombGrid 12 None)
  /\ onClickDoor 100 (onClickWindow 7 (activeState bombGrid 12 None))
     = onClickWindow 7 (activeState bombGrid 12 None).
Proof.
  split; [reflexivity |].
  destruct (inactive_game_ignores_clicks
              (onClickWindow 7 (activeState bombGrid 12 None))
              (or_introl eq_refl) 4%nat 100 0%Q 0%Q) as (Hw & Hd & _).
  split; [exact Hw | exact Hd].
Defined.

Lemma bombSeen_false (cells : list WindowCell.t) (i : nat)
    (cell : WindowCell.t) (item : Spawnable.t) :
  bombSeen cells = false -> cells !! i = Some cell ->
  WindowCell.active cell = Some item -> is_bomb (Spawnable.kind item) = false.
Proof.
  revert i. induction cells as [|c rest IH]; intros i Hseen Hcell Hact;
    [discriminate |].
  unfold bombSeen in Hseen. simpl in Hseen.
  apply orb_false_iff in Hseen. destruct Hseen as [Hc Hrest].
  destruct i as [|i]; simpl in Hcell.
  - injection Hcell as ->. rewrite Hact in Hc. exact Hc.
  - exact (IH i Hrest Hcell Hact).
Qed.

(** X7: While no slot of the grid holds a bomb, no window click ends the
    game. *)
Theorem no_bomb_no_game_over (s : State) (i : nat) :
  bombSeen (grid s) = false ->
  gameOver (onClickWindow i s) = gameOver s.
Proof.
  intros Hseen. unfold onClickWindow.
  destruct (gameOver s) eqn:Hover; [exact Hover |].
  destruct (negb (is_game (view s))); [exact Hover |].
  destruct (grid s !! i) as [cell|] eqn:Hcell; [| exact Hover].
  destruct (WindowCell.active cell) as [picked|] eqn:Hact; [| exact Hover].
  rewrite (bombSeen_false (grid s) i cell picked Hseen Hcell Hact).
  exact Hover.
Qed.

Lemma no_bomb_no_game_over_at_cloverGrid :
  bombSeen cloverGrid = false
  /\ gameOver (onClickWindow 4 (activeState cloverGrid 10 None)) = false.
Proof.
  split; [reflexivity |].
  exact (no_bomb_no_game_over (activeState cloverGrid 10 None) 4 eq_refl).
Defined.

(** ** Door click on a live drop *)

(** X5: In an active game, a click on a door drop that has not expired adds
    its points by day and subtracts them by night, empties the door, and
    touches neither the grid, nor [gameOver], nor the awarded
    milestones. *)
Theorem door_click_on_live_drop (now : Z) (s : State) (d : DoorDrop.t) :
  gameOver s = false -> view s = game ->
  doorDrop s = Some d -> now < DoorDrop.expiresAt d ->
  points (onClickDoor now s)
  = points s + (match theme s with
                | day => DoorDrop.points d
                | night => - DoorDrop.points d
                end)
  /\ doorDrop (onClickDoor now s) = None
  /\ grid (onClickDoor now s) = grid s
  /\ gameOver (onClickDoor now s) = false
  /\ doorMilestonesAwarded (onClickDoor now s) = doorMilestonesAwarded s.
Proof.
  intros Hover Hview Hd Hlive. unfold onClickDoor.
  rewrite Hover, (view_game_is_game s Hview), Hd. simpl.
  destruct (Z.leb_spec (DoorDrop.expiresAt d) now); [lia |].
  split; [| repeat split; assumption].
  simpl. unfold themedPoints. destruct (theme s); reflexivity.
Qed.

Lemma door_click_on_live_drop_at_staleDoorState :
  8000 - 1 < 8000
  /\ points (onClickDoor (8000 - 1) staleDoorState) = 50 + 10
  /\ doorDrop (onClickDoor (8000 - 1) staleDoorState) = None.
Proof.
  split; [lia |].
  destruct (door_click_on_live_drop (8000 - 1) staleDoorState
              (DoorDrop.mk "🎁" 10 8000)) as (Hp & Hd & _);
    [reflexivity | reflexivity | reflexivity | simpl; lia |].
  split; [exact Hp | exact Hd].
Defined.

(** ** Random draws *)



(** ** Spawn tick *)

(** X2: With draws of the unit interval and at least one available slot, the
    spawn tick writes exactly one slot: an available one, which receives
    an item of the catalog and an expiry between 3000 and 6000
    milliseconds after the tick, and keeps its [id]; every other slot is
    as before. *)
Theorem spawn_tick_populates_one_slot (now : Z) (u1 u2 u3 : Q)
    (prev : list WindowCell.t) (k : nat) (cell : WindowCell.t) :
  unit_draw u1 -> unit_draw u2 -> unit_draw u3 ->
  prev !! k = Some cell -> available now cell = true ->
  exists target old item e,
    prev !! target = Some old /\ available now old = true
    /\ item ∈ SPAWNABLES
    /\ now + TTL_MIN_MS <= e <= now + TTL_MAX_MS
    /\ spawnGrid now u1 u2 u3 prev !! target
       = Some (WindowCell.mk (WindowCell.id old) (Some item) e)
    /\ (forall j, j <> target -> spawnGrid now u1 u2 u3 prev !! j = prev !! j).
Proof.
  intros Hu1 Hu2 Hu3 Hk Hav.
  destruct (spawnGrid_populates now u1 u2 u3 prev k cell Hu1 Hu2 Hk Hav)
    as (target & old & item & Hold & Hoav & Hitem & ->).
  exists target, old, item, (now + randomIntRange u3 TTL_MIN_MS TTL_MAX_MS).
  split; [exact Hold |]. split; [exact Hoav |]. split; [exact Hitem |].
  split.
  - pose proof (randomIntRange_range u3 TTL_MIN_MS TTL_MAX_MS Hu3) as H.
    unfold TTL_MIN_MS, TTL_MAX_MS in *. lia.
  - split.
    + apply list_lookup_insert_eq. eapply lookup_lt_Some; exact Hold.
    + intros j Hj. apply list_lookup_insert_ne. congruence.
Qed.

Lemma spawn_tick_populates_cloverGrid :
  exists target old item e,
    cloverGrid !! target = Some old /\ available 6000 old = true
    /\ item ∈ SPAWNABLES
    /\ 6000 + TTL_MIN_MS <= e <= 6000 + TTL_MAX_MS
    /\ spawnGrid 6000 (1 # 3) (7 # 8) (1 # 2) cloverGrid !! target
       = Some (WindowCell.mk (WindowCell.id old) (Some item) e)
    /\ (forall j, j <> target ->
          spawnGrid 6000 (1 # 3) (7 # 8) (1 # 2) cloverGrid !! j = cloverGrid !! j).
Proof.
  apply (spawn_tick_populates_one_slot 6000 (1 # 3) (7 # 8) (1 # 2) cloverGrid
           4 (WindowCell.mk 4 (Some (Spawnable.mk good "🍀" 3)) 5000));
    try (split; [discriminate | reflexivity]); reflexivity.
Defined.

(** ** Expiry sweep *)

Lemma sweepCell_idem (now : Z) (c : WindowCell.t) :
  sweepCell now (sweepCell now c) = sweepCell now c.
Proof.
  unfold sweepCell. destruct (WindowCell.active c) eqn:Ha; [| rewrite Ha; reflexivity].
  destruct (WindowCell.expiresAt c <=? now) eqn:He; [reflexivity |].
  rewrite Ha, He. reflexivity.
Qed.

Lemma sweepCell_live (now : Z) (c : WindowCell.t) :
  WindowCell.active (sweepCell now c) <> None ->
  now < WindowCell.expiresAt (sweepCell now c).
Proof.
  unfold sweepCell. destruct (WindowCell.active c) eqn:Ha; [| congruence].
  destruct (Z.leb_spec (WindowCell.expiresAt c) now); simpl; [congruence | lia].
Qed.

Lemma occupied_sweep_le (now : Z) (cells : list WindowCell.t) :
  (occupied (map (sweepCell now) cells) <= occupied cells)%nat.
Proof.
  unfold occupied. induction cells as [|c rest IH]; [simpl; lia |].
  simpl.
  destruct (is_active (sweepCell now c)) eqn:E1, (is_active c) eqn:E2;
    simpl; try lia.
  exfalso. unfold sweepCell, is_active in *.
  destruct (WindowCell.active c) eqn:Ha; [discriminate E2 |].
  rewrite Ha in E1. discriminate E1.
Qed.

(** X3: The sweep at [now] clears a slot exactly when it is occupied and its
    [expiresAt] is at most [now], keeping its [id]; an empty slot and a
    slot that expires later are left as they are, and so is the door
    drop, which is removed exactly when its [expiresAt] is at most [now].
    The score, [gameOver], the awarded milestones and the clock are not
    touched. *)
Theorem sweep_clears_exactly_expired (now : Z) (s : State) (i : nat)
    (cell : WindowCell.t) :
  grid s !! i = Some cell ->
  (WindowCell.active cell <> None -> WindowCell.expiresAt cell <= now ->
     grid (cleanupTick now s) !! i = Some (WindowCell.mk (WindowCell.id cell) None 0))
  /\ (WindowCell.active cell = None \/ now < WindowCell.expiresAt cell ->
     grid (cleanupTick now s) !! i = Some cell)
  /\ (forall d, doorDrop s = Some d ->
        doorDrop (cleanupTick now s)
        = if DoorDrop.expiresAt d <=? now then None else Some d)
  /\ (doorDrop s = None -> doorDrop (cleanupTick now s) = None)
  /\ length (grid (cleanupTick now s)) = length (grid s)
  /\ points (cleanupTick now s) = points s
  /\ gameOver (cleanupTick now s) = gameOver s
  /\ doorMilestonesAwarded (cleanupTick now s) = doorMilestonesAwarded s
  /\ elapsedSeconds (cleanupTick now s) = elapsedSeconds s.
Proof.
  intros Hcell.
  assert (Hlook : grid (cleanupTick now s) !! i = Some (sweepCell now cell)).
  { simpl. change (map ?f ?l) with (f <$> l). rewrite list_lookup_fmap, Hcell.
    reflexivity. }
  rewrite Hlook. unfold sweepCell. repeat split.
  - intros Hact Hexp. destruct (WindowCell.active cell); [| congruence].
    destruct (Z.leb_spec (WindowCell.expiresAt cell) now); [reflexivity | lia].
  - intros [Hact | Hexp].
    + rewrite Hact. reflexivity.
    + destruct (WindowCell.active cell); [| reflexivity].
      destruct (Z.leb_spec (WindowCell.expiresAt cell) now); [lia | reflexivity].
  - intros d Hd. simpl. rewrite Hd. reflexivity.
  - intros Hd. simpl. rewrite Hd. reflexivity.
  - simpl. apply length_map.
Qed.

Lemma sweep_clears_exactly_expired_at_clover :
  grid (cleanupTick 5000 (activeState cloverGrid 0 None)) !! 4%nat
  = Some (WindowCell.mk 4 None 0)
  /\ grid (cleanupTick 4999 (activeState cloverGrid 0 None)) !! 4%nat
     = Some (WindowCell.mk 4 (Some (Spawnable.mk good "🍀" 3)) 5000).
Proof.
  split.
  - destruct (sweep_clears_exactly_expired 5000 (activeState cloverGrid 0 None) 4
                (WindowCell.mk 4 (Some (Spawnable.mk good "🍀" 3)) 5000) eq_refl)
      as (H & _).
    apply H; [discriminate | simpl; lia].
  - destruct (sweep_clears_exactly_expired 4999 (activeState cloverGrid 0 None) 4
                (WindowCell.mk 4 (Some (Spawnable.mk good "🍀" 3)) 5000) eq_refl)
      as (_ & H & _).
    apply H. right. simpl. lia.
Defined.

(** X4: After a sweep at [now] every occupied slot and the door drop, if any,
    expire after [now], so a slot is available to the spawn tick at
    [now] exactly when it is empty; the sweep does not raise the number
    of occupied slots, and a second sweep at the same instant changes
    nothing. *)
Theorem sweep_leaves_only_live (now : Z) (s : State) :
  (forall i cell, grid (cleanupTick now s) !! i = Some cell ->
     (WindowCell.active cell <> None -> now < WindowCell.expiresAt cell)
     /\ available now cell = negb (is_active cell))
  /\ (forall d, doorDrop (cleanupTick now s) = Some d -> now < DoorDrop.expiresAt d)
  /\ (occupied (grid (cleanupTick now s)) <= occupied (grid s))%nat
  /\ cleanupTick now (cleanupTick now s) = cleanupTick now s.
Proof.
  split; [| split; [| split]].
  - intros i cell Hcell. simpl in Hcell.
    change (map ?f ?l) with (f <$> l) in Hcell.
    rewrite list_lookup_fmap in Hcell.
    destruct (grid s !! i) as [c|]; [| discriminate].
    simpl in Hcell. injection Hcell as <-.
    pose proof (sweepCell_live now c) as Hlive. split; [exact Hlive |].
    unfold available, is_active in *.
    destruct (WindowCell.active (sweepCell now c)); simpl; [| reflexivity].
    apply Z.leb_gt. apply Hlive. discriminate.
  - simpl. intros d. unfold sweepDoor. destruct (doorDrop s) as [prev|]; [| discriminate].
    destruct (Z.leb_spec (DoorDrop.expiresAt prev) now); [discriminate |].
    intros [= <-]. assumption.
  - simpl. apply occupied_sweep_le.
  - assert (Hg : map (sweepCell now) (map (sweepCell now) (grid s))
                 = map (sweepCell now) (grid s)).
    { rewrite map_map. apply map_ext. intros c. apply sweepCell_idem. }
    assert (Hd : sweepDoor now (sweepDoor now (doorDrop s))
                 = sweepDoor now (doorDrop s)).
    { unfold sweepDoor. destruct (doorDrop s) as [prev|]; [| reflexivity].
      destruct (DoorDrop.expiresAt prev <=? now) eqn:E; [reflexivity |].
      rewrite E. reflexivity. }
    unfold cleanupTick, setGrid, setDoorDrop. simpl. rewrite Hg, Hd. reflexivity.
Qed.

Lemma sweep_leaves_only_live_at_clover :
  occupied cloverGrid = 1%nat
  /\ occupied (grid (cleanupTick 5000 (activeState cloverGrid 0 None))) = 0%nat
  /\ cleanupTick 5000 (cleanupTick 5000 (activeState cloverGrid 0 None))
     = cleanupTick 5000 (activeState cloverGrid 0 None).
Proof.
  destruct (sweep_leaves_only_live 5000 (activeState cloverGrid 0 None))
    as (_ & _ & _ & Hidem).
  split; [reflexivity |]. split; [reflexivity | exact Hidem].
Defined.

(** ** Leaving and entering the game view *)

(** X10: Outside the game view the effect records the pause instant once: a
    mark already set is kept, a second run changes nothing, and the grid,
    the door, the score and the clock are not touched. *)
Theorem pause_mark_recorded_once (now1 now2 : Z) (s : State) :
  view s <> game ->
  pausedAt (viewEffect now1 s)
  = Some (match pausedAt s with Some p => p | None => now1 end)
  /\ viewEffect now2 (viewEffect now1 s) = viewEffect now1 s
  /\ grid (viewEffect now1 s) = grid s
  /\ doorDrop (viewEffect now1 s) = doorDrop s
  /\ points (viewEffect now1 s) = points s
  /\ startedAt (viewEffect now1 s) = startedAt s
  /\ elapsedSeconds (viewEffect now1 s) = elapsedSeconds s.
Proof.
  intros Hview. unfold viewEffect.
  destruct (view s) eqn:Ev; [| | congruence]; simpl;
    destruct (pausedAt s) as [p|] eqn:Ep; simpl; rewrite ?Ev, ?Ep; simpl;
    repeat split.
Qed.

Lemma pause_mark_recorded_once_on_instructions :
  pausedAt (viewEffect 10000 (openInstructions (activeState cloverGrid 10 None)))
  = Some 10000
  /\ viewEffect 12500
       (viewEffect 10000 (openInstructions (activeState cloverGrid 10 None)))
     = viewEffect 10000 (openInstructions (activeState cloverGrid 10 None)).
Proof.
  destruct (pause_mark_recorded_once 10000 12500
              (openInstructions (activeState cloverGrid 10 None)))
    as (Hp & Hidem & _); [discriminate |].
  split; [exact Hp | exact Hidem].
Defined.

(** X11: A game left for the instructions at [p] and entered again at [now]:
    every occupied slot and the door drop have at [now] the time to live
    they had at [p], so none of them expires during the pause; the
    occupants, the score and the elapsed seconds are those of the game
    that was left. *)
Theorem pause_then_resume_keeps_time_to_live (p now : Z) (s : State) :
  view s = game -> pausedAt s = None -> p <= now ->
  let s' := viewEffect now (setView game (viewEffect p (openInstructions s))) in
  (forall i cell, grid s !! i = Some cell -> WindowCell.active cell <> None ->
     exists cell', grid s' !! i = Some cell'
       /\ WindowCell.active cell' = WindowCell.active cell
       /\ WindowCell.expiresAt cell' - now = WindowCell.expiresAt cell - p)
  /\ (forall d, doorDrop s = Some d ->
        exists d', doorDrop s' = Some d'
          /\ DoorDrop.points d' = DoorDrop.points d
          /\ DoorDrop.expiresAt d' - now = DoorDrop.expiresAt d - p)
  /\ view s' = game /\ pausedAt s' = None
  /\ points s' = points s /\ gameOver s' = gameOver s
  /\ elapsedSeconds s' = elapsedSeconds s.
Proof.
  intros Hview Hp Hle s'.
  assert (Hs' : s' = resume now p (setView game (setPausedAt (Some p) (openInstructions s)))).
  { subst s'. unfold viewEffect at 2. simpl. rewrite Hp. reflexivity. }
  rewrite Hs'. clear Hs' s'.
  set (s2 := setView game (setPausedAt (Some p) (openInstructions s))).
  rewrite (resume_grid now p s2), (resume_doorDrop now p s2) by lia.
  split; [| split;
    [| unfold resume; destruct (0 <? now - p); repeat split; reflexivity]].
  - intros i cell Hcell Hact. exists (shiftCell (now - p) cell). split.
    + change (map ?f ?l) with (f <$> l). simpl. rewrite list_lookup_fmap, Hcell.
      reflexivity.
    + unfold shiftCell. destruct (WindowCell.active cell) eqn:E; [| congruence].
      simpl. split; [reflexivity | lia].
  - intros d Hd. simpl. rewrite Hd. simpl. eexists. split; [reflexivity |].
    simpl. split; [reflexivity | lia].
Qed.

Lemma pause_then_resume_at_clover :
  exists cell',
    grid (viewEffect 12500
            (setView game
               (viewEffect 10000 (openInstructions (activeState cloverGrid 10 None)))))
      !! 4%nat = Some cell'
    /\ WindowCell.expiresAt cell' - 12500 = 5000 - 10000.
Proof.
  destruct (pause_then_resume_keeps_time_to_live 10000 12500
              (activeState cloverGrid 10 None)) as (Hcells & _);
    [reflexivity | reflexivity | lia |].
  destruct (Hcells 4%nat (WindowCell.mk 4 (Some (Spawnable.mk good "🍀" 3)) 5000))
    as (cell' & Hcell' & _ & Hexp); [reflexivity | discriminate |].
  exists cell'. split; [exact Hcell' | exact Hexp].
Defined.

(** X12: [startGame] followed by the effects that run after it (the view
    effect, the milestone check, the run-key effect) gives, from any
    state, the fresh session: the game view, the ten empty slots, score
    0, no door drop, no milestone awarded, no pause mark, the clock
    started at the current time; and the theme is day for the first 55
    seconds. *)
Theorem start_game_gives_fresh_session (now : Z) (u1 u2 : Q) (s : State) :
  runKeyEffect now (milestoneEffect now u1 u2 (viewEffect now (startGame s)))
  = mkState game createInitialGrid 0 false None 0 0 (runKey s + 1) now None
  /\ (forall d, 0 <= d < 55000 ->
        theme (timerTick (now + d)
                 (runKeyEffect now
                    (milestoneEffect now u1 u2 (viewEffect now (startGame s)))))
        = day).
Proof.
  assert (E : runKeyEffect now (milestoneEffect now u1 u2 (viewEffect now (startGame s)))
              = mkState game createInitialGrid 0 false None 0 0 (runKey s + 1) now None).
  { assert (Hv : viewEffect now (startGame s)
                 = setPausedAt None
                     (setStartedAt (now - elapsedSeconds s * 1000) (startGame s))).
    { unfold viewEffect, resume. simpl.
      destruct (pausedAt s) as [p|] eqn:Ep; [destruct (0 <? now - p) |];
        unfold setPausedAt, setStartedAt, setGrid, setDoorDrop; simpl;
        rewrite ?Ep; reflexivity. }
    rewrite Hv. reflexivity. }
  split; [exact E |].
  intros d Hd. rewrite E. unfold theme, timerTick. simpl.
  rewrite themeOf_mod.
  replace (now + d - now) with d by lia.
  destruct (Z.eqb_spec (((d / 1000 + 5) / 60) mod 2) 0) as [_|Hne]; [reflexivity |].
  exfalso. apply Hne. Z.div_mod_to_equations. lia.
Qed.

(** ** The clock *)

(** X13: When a timer tick at [now1] is followed by the run of the view effect
    at [now2] in a running game, the start reference does not move back
    and moves forward by less than a second plus the delay between the
    two; the elapsed seconds shown stay those of the tick, and no later
    tick shows more elapsed time than it would have without the effect. *)
Theorem clock_reanchor_never_runs_ahead (now1 now2 : Z) (s : State) :
  view s = game -> pausedAt s = None -> now1 <= now2 ->
  let s' := viewEffect now2 (timerTick now1 s) in
  startedAt s <= startedAt s' < startedAt s + 1000 + (now2 - now1)
  /\ elapsedSeconds (timerTick now2 s') = elapsedSeconds (timerTick now1 s)
  /\ (forall later, elapsedSeconds (timerTick later s')
                    <= elapsedSeconds (timerTick later s)).
Proof.
  intros Hview Hp Hle s'.
  assert (Hst : startedAt s' = now2 - (now1 - startedAt s) / 1000 * 1000).
  { subst s'. unfold viewEffect, timerTick. simpl. rewrite Hview, Hp. reflexivity. }
  split; [rewrite Hst; Z.div_mod_to_equations; lia |].
  split.
  - unfold timerTick at 1. cbn [elapsedSeconds setElapsedSeconds]. rewrite Hst.
    replace (now2 - (now2 - (now1 - startedAt s) / 1000 * 1000))
      with ((now1 - startedAt s) / 1000 * 1000) by lia.
    rewrite Z.div_mul by lia. reflexivity.
  - intros later. unfold timerTick. cbn [elapsedSeconds setElapsedSeconds].
    apply Z.div_le_mono; [lia |].
    rewrite Hst. Z.div_mod_to_equations. lia.
Qed.

Lemma clock_reanchor_at_tick_1250 :
  (0 <= startedAt (viewEffect 1260 (timerTick 1250 (activeState cloverGrid 0 None)))
     < 0 + 1000 + (1260 - 1250))
  /\ elapsedSeconds
       (timerTick 1260 (viewEffect 1260 (timerTick 1250 (activeState cloverGrid 0 None))))
     = 1.
Proof.
  destruct (clock_reanchor_never_runs_ahead 1250 1260 (activeState cloverGrid 0 None))
    as (Hst & He & _); [reflexivity | reflexivity | lia |].
  split; [exact Hst | exact He].
Defined.

Lemma start_game_from_game_over :
  runKeyEffect 90000
    (milestoneEffect 90000 0 0
       (viewEffect 90000 (startGame (onClickWindow 7 (activeState bombGrid 12 None)))))
  = mkState game createInitialGrid 0 false None 0 0 2 90000 None
  /\ theme (timerTick (90000 + 54999)
              (runKeyEffect 90000
                 (milestoneEffect 90000 0 0
                    (viewEffect 90000
                       (startGame (onClickWindow 7 (activeState bombGrid 12 None)))))))
     = day.
Proof.
  destruct (start_game_gives_fresh_session 90000 0 0
              (onClickWindow 7 (activeState bombGrid 12 None))) as (Hfresh & Hday).
  split; [exact Hfresh | apply Hday; lia].
Defined.

(** ** Milestones *)

Lemma milestoneEffect_fires (now : Z) (u1 u2 : Q) (s : State) (item : DoorItem.t) :
  view s = game -> gameOver s = false -> pickDoorItem u1 = Some item ->
  0 <= doorMilestonesAwarded s -> doorMilestonesAwarded s < doorMilestones s ->
  milestoneEffect now u1 u2 s
  = setDoorDrop
      (Some (DoorDrop.mk (DoorItem.emoji item) (DoorItem.points item)
               (now + randomIntRange u2 TTL_MIN_MS TTL_MAX_MS)))
      (setDoorMilestonesAwarded (doorMilestones s) s).
Proof.
  intros Hview Hover Hitem Hnonneg Hlt. unfold milestoneEffect.
  rewrite (view_game_is_game s Hview), Hover, Hitem. simpl.
  destruct (Z.leb_spec (doorMilestones s) 0); [lia |].
  destruct (Z.leb_spec (doorMilestones s) (doorMilestonesAwarded s)); [lia |].
  reflexivity.
Qed.

(** X14: The milestone check never lowers the awarded milestones and never
    touches the score, the grid or [gameOver]; it changes the door drop
    only when it raises the awarded milestones; and while the count
    floor(score / 50) is not above the awarded milestones it changes
    nothing, so a threshold crossed again after the score fell back arms
    no second drop. *)
Theorem milestone_check_is_monotone (now : Z) (u1 u2 : Q) (s : State) :
  doorMilestonesAwarded s <= doorMilestonesAwarded (milestoneEffect now u1 u2 s)
  /\ points (milestoneEffect now u1 u2 s) = points s
  /\ grid (milestoneEffect now u1 u2 s) = grid s
  /\ gameOver (milestoneEffect now u1 u2 s) = gameOver s
  /\ (doorDrop (milestoneEffect now u1 u2 s) <> doorDrop s ->
        doorMilestonesAwarded s < doorMilestonesAwarded (milestoneEffect now u1 u2 s))
  /\ (points s / 50 <= doorMilestonesAwarded s -> milestoneEffect now u1 u2 s = s).
Proof.
  assert (H : milestoneEffect now u1 u2 s = s
              \/ (doorMilestonesAwarded s < doorMilestones s
                  /\ exists d, milestoneEffect now u1 u2 s
                       = setDoorDrop d (setDoorMilestonesAwarded (doorMilestones s) s))).
  { unfold milestoneEffect.
    destruct (negb (is_game (view s))); [left; reflexivity |].
    destruct (gameOver s); [left; reflexivity |].
    destruct (doorMilestones s <=? 0); [left; reflexivity |].
    destruct (Z.leb_spec (doorMilestones s) (doorMilestonesAwarded s));
      [left; reflexivity |].
    destruct (pickDoorItem u1); [| left; reflexivity].
    right. split; [assumption | eexists; reflexivity]. }
  destruct H as [-> | (Hlt & d & ->)]; simpl.
  - repeat split; try lia; try reflexivity. intros Hne. congruence.
  - repeat split; try lia.
    intros Hle. unfold doorMilestones in Hlt. lia.
Qed.

Lemma milestone_check_not_rearmed :
  milestoneEffect 0 (1 # 2) (1 # 2)
    (mkState game createInitialGrid 51 false None 1 0 1 0 None)
  = mkState game createInitialGrid 51 false None 1 0 1 0 None.
Proof.
  destruct (milestone_check_is_monotone 0 (1 # 2) (1 # 2)
              (mkState game createInitialGrid 51 false None 1 0 1 0 None))
    as (_ & _ & _ & _ & _ & Hidle).
  apply Hidle. vm_compute. discriminate.
Defined.

(** X15: A click that scores, followed by the milestone check: when the new
    score lifts floor(score / 50) above the awarded milestones, the
    check sets them to that count and puts at the door an item of the
    door catalog that expires between 3000 and 6000 milliseconds later;
    the score is the one the click produced. *)
Theorem scoring_click_then_milestone (now : Z) (u1 u2 : Q) (s : State)
    (i : nat) (cell : WindowCell.t) (picked : Spawnable.t) :
  gameOver s = false -> view s = game ->
  grid s !! i = Some cell -> WindowCell.active cell = Some picked ->
  Spawnable.kind picked <> bomb ->
  unit_draw u1 -> unit_draw u2 ->
  0 <= doorMilestonesAwarded s ->
  let score := points s + themedPoints (Spawnable.points picked) (theme s) in
  doorMilestonesAwarded s < score / 50 ->
  let s' := milestoneEffect now u1 u2 (onClickWindow i s) in
  points s' = score
  /\ doorMilestonesAwarded s' = score / 50
  /\ exists item e,
       item ∈ DOOR_ITEMS
       /\ now + TTL_MIN_MS <= e <= now + TTL_MAX_MS
       /\ doorDrop s' = Some (DoorDrop.mk (DoorItem.emoji item) (DoorItem.points item) e).
Proof.
  intros Hover Hview Hcell Hact Hkind Hu1 Hu2 Hnonneg score Hlt s'.
  destruct (pickDoorItem_Some u1 Hu1) as [item Hitem].
  subst s'. rewrite (onClickWindow_scored s i cell picked) by assumption.
  fold score.
  rewrite (milestoneEffect_fires now u1 u2 _ item); try assumption.
  simpl. repeat split.
  exists item, (now + randomIntRange u2 TTL_MIN_MS TTL_MAX_MS).
  split; [eapply list_elem_of_lookup_2, at_index_inv, Hitem |].
  split; [| reflexivity].
  pose proof (randomIntRange_range u2 TTL_MIN_MS TTL_MAX_MS Hu2) as H.
  unfold TTL_MIN_MS, TTL_MAX_MS in *. lia.
Qed.

Lemma scoring_click_48_plus_5 :
  points (milestoneEffect 3000 (1 # 2) (1 # 2)
            (onClickWindow 4
               (activeState
                  (<[ 4%nat := WindowCell.mk 4 (Some (Spawnable.mk good "💎" 5)) 9000 ]>
                     createInitialGrid) 48 None))) = 53
  /\ doorMilestonesAwarded
       (milestoneEffect 3000 (1 # 2) (1 # 2)
          (onClickWindow 4
             (activeState
                (<[ 4%nat := WindowCell.mk 4 (Some (Spawnable.mk good "💎" 5)) 9000 ]>
                   createInitialGrid) 48 None))) = 1.
Proof.
  destruct (scoring_click_then_milestone 3000 (1 # 2) (1 # 2)
              (activeState
                 (<[ 4%nat := WindowCell.mk 4 (Some (Spawnable.mk good "💎" 5)) 9000 ]>
                    createInitialGrid) 48 None)
              4 (WindowCell.mk 4 (Some (Spawnable.mk good "💎" 5)) 9000)
              (Spawnable.mk good "💎" 5)) as (Hp & Hm & _);
    try reflexivity; try discriminate;
    try (split; [discriminate | reflexivity]); try (simpl; lia).
  split; [exact Hp | exact Hm].
Defined.

(** ** Reachable states *)

Lemma occupied_le_length (cells : list WindowCell.t) :
  (occupied cells <= length cells)%nat.
Proof.
  unfold occupied. induction cells as [|c rest IH]; simpl; [lia |].
  destruct (is_active c); simpl; lia.
Qed.

(** X16: In every state that an execution reaches, the grid has its ten
    slots, the [id] of a slot is its index, at most ten slots are
    occupied, an empty slot has [expiresAt] 0, and the awarded
    milestones are not negative. *)
Theorem reachable_grid_is_well_formed (s : State) :
  reachable s ->
  length (grid s) = CELL_COUNT
  /\ (forall i cell, grid s !! i = Some cell -> WindowCell.id cell = i)
  /\ (occupied (grid s) <= CELL_COUNT)%nat
  /\ (forall i cell, grid s !! i = Some cell ->
        WindowCell.active cell = None -> WindowCell.expiresAt cell = 0)
  /\ 0 <= doorMilestonesAwarded s.
Proof.
  intros Hr. destruct (reachable_state_inv s Hr) as (Hinv & Hok & Hlen & Hm).
  split; [exact Hlen |]. split; [exact Hok |].
  split; [rewrite <- Hlen; apply occupied_le_length |].
  split; [| exact Hm].
  intros i cell Hcell. exact (Forall_lookup_1 _ _ _ _ Hinv Hcell).
Qed.

Lemma reachable_grid_is_well_formed_cloverRun :
  length (grid cloverRun) = CELL_COUNT
  /\ (occupied (grid cloverRun) <= CELL_COUNT)%nat.
Proof.
  destruct (reachable_grid_is_well_formed cloverRun reachable_cloverRun)
    as (Hlen & _ & Hocc & _).
  split; [exact Hlen | exact Hocc].
Defined.

Lemma from_catalog_map (f : WindowCell.t -> WindowCell.t)
    (cells : list WindowCell.t) :
  (forall c, WindowCell.active (f c) = WindowCell.active c
             \/ WindowCell.active (f c) = None) ->
  Forall from_catalog cells -> Forall from_catalog (map f cells).
Proof.
  intros Hf Hall. induction Hall as [|c l Hc Hl IH]; simpl; constructor; [| exact IH].
  intros item Hitem. destruct (Hf c) as [E | E]; rewrite E in Hitem;
    [exact (Hc item Hitem) | discriminate].
Qed.

Lemma from_catalog_createInitialGrid : Forall from_catalog createInitialGrid.
Proof.
  apply Forall_lookup_2. intros i cell H.
  apply createInitialGrid_lookup in H. subst cell. intros item. discriminate.
Qed.

Lemma from_catalog_spawnGrid (now : Z) (u1 u2 u3 : Q) (prev : list WindowCell.t) :
  Forall from_catalog prev -> Forall from_catalog (spawnGrid now u1 u2 u3 prev).
Proof.
  intros Hall.
  destruct (spawnGrid_cases now u1 u2 u3 prev)
    as [-> | (target & old & _ & _ & ->)]; [exact Hall |].
  apply Forall_insert; [exact Hall |].
  intros item Hitem. cbn [WindowCell.active] in Hitem.
  eapply list_elem_of_lookup_2, at_index_inv, Hitem.
Qed.

Lemma active_sweepCell (now : Z) (c : WindowCell.t) :
  WindowCell.active (sweepCell now c) = WindowCell.active c
  \/ WindowCell.active (sweepCell now c) = None.
Proof.
  unfold sweepCell. destruct (WindowCell.active c) eqn:E; [| left; exact E].
  destruct (WindowCell.expiresAt c <=? now); [right; reflexivity | left; exact E].
Qed.

Lemma active_shiftCell (delta : Z) (c : WindowCell.t) :
  WindowCell.active (shiftCell delta c) = WindowCell.active c
  \/ WindowCell.active (shiftCell delta c) = None.
Proof.
  left. unfold shiftCell. destruct (WindowCell.active c) eqn:E; [reflexivity | exact E].
Qed.

Lemma catalog_inv_step (s s' : State) : step s s' -> catalog_inv s -> catalog_inv s'.
Proof.
  intros Hstep [Hg Hd]. destruct Hstep.
  - unfold viewEffect, resume.
    destruct (negb (is_game (view s))), (pausedAt s) as [p|]; simpl;
      try (split; assumption).
    destruct (0 <? now - p); simpl; [| split; assumption]. split.
    + apply from_catalog_map; [apply active_shiftCell | exact Hg].
    + intros d. destruct (doorDrop s) as [prev|]; simpl; [| discriminate].
      intros [= <-]. simpl. apply Hd. reflexivity.
  - unfold milestoneEffect.
    destruct (negb (is_game (view s))); [split; assumption |].
    destruct (gameOver s); [split; assumption |].
    destruct (doorMilestones s <=? 0); [split; assumption |].
    destruct (doorMilestones s <=? doorMilestonesAwarded s); [split; assumption |].
    destruct (pickDoorItem u1) as [item|] eqn:Hitem; [| split; assumption].
    split; [exact Hg |]. simpl. intros d [= <-]. simpl.
    destruct item as [e pts]. simpl.
    eapply list_elem_of_lookup_2, at_index_inv, Hitem.
  - split; [apply from_catalog_spawnGrid; exact Hg | exact Hd].
  - split; simpl.
    + apply from_catalog_map; [apply active_sweepCell | exact Hg].
    + intros d. unfold sweepDoor. destruct (doorDrop s) as [prev|]; [| discriminate].
      destruct (DoorDrop.expiresAt prev <=? now); [discriminate |].
      intros [= <-]. apply Hd. reflexivity.
  - split; assumption.
  - unfold onClickWindow.
    destruct (gameOver s); [split; assumption |].
    destruct (negb (is_game (view s))); [split; assumption |].
    destruct (grid s !! id) as [cell|]; [| split; assumption].
    destruct (WindowCell.active cell) as [picked|]; [| split; assumption].
    destruct (is_bomb (Spawnable.kind picked)); split; simpl; try exact Hd.
    + apply from_catalog_map; [| exact Hg].
      intros c. destruct (WindowCell.id c =? id)%nat; [right | left]; reflexivity.
    + apply Forall_insert; [exact Hg | intros item; discriminate].
  - unfold onClickDoor.
    destruct (gameOver s); [split; assumption |].
    destruct (negb (is_game (view s))); [split; assumption |].
    destruct (doorDrop s) as [prev|] eqn:Hprev;
      [| split; [assumption | intros d Hd0; congruence]].
    destruct (DoorDrop.expiresAt prev <=? now); split; simpl;
      try exact Hg; intros d; discriminate.
  - split; simpl; [apply from_catalog_createInitialGrid | intros d; discriminate].
  - split; assumption.
  - split; simpl; [apply from_catalog_createInitialGrid | intros d; discriminate].
  - split; assumption.
  - split; assumption.
Qed.

Lemma reachable_catalog_inv (s : State) : reachable s -> catalog_inv s.
Proof.
  induction 1 as [t0 | s s' _ IH Hstep].
  - split; simpl; [apply from_catalog_createInitialGrid | intros d; discriminate].
  - exact (catalog_inv_step s s' Hstep IH).
Qed.

Lemma spawnable_points_bounds (item : Spawnable.t) :
  item ∈ SPAWNABLES ->
  -4 <= Spawnable.points item <= 5
  /\ (is_bomb (Spawnable.kind item) = true -> Spawnable.points item = 0).
Proof.
  unfold SPAWNABLES. intros H.
  repeat (apply elem_of_cons in H; destruct H as [-> | H];
          [simpl; split; [lia | congruence] |]).
  apply elem_of_nil in H. contradiction.
Qed.

Lemma door_points_bounds (item : DoorItem.t) :
  item ∈ DOOR_ITEMS -> -12 <= DoorItem.points item <= 15.
Proof.
  unfold DOOR_ITEMS. intros H.
  repeat (apply elem_of_cons in H; destruct H as [-> | H]; [simpl; lia |]).
  apply elem_of_nil in H. contradiction.
Qed.

(** X17: In every reachable state each occupant is an item of the catalog and
    the door drop is an item of the door catalog; so one window click
    moves the score by at most 5 points and one door click by at most
    15. *)
Theorem reachable_items_come_from_catalog (s : State) :
  reachable s ->
  (forall i cell item, grid s !! i = Some cell ->
     WindowCell.active cell = Some item -> item ∈ SPAWNABLES)
  /\ (forall d, doorDrop s = Some d ->
        DoorItem.mk (DoorDrop.emoji d) (DoorDrop.points d) ∈ DOOR_ITEMS)
  /\ (forall i, -5 <= points (onClickWindow i s) - points s <= 5)
  /\ (forall now, -15 <= points (onClickDoor now s) - points s <= 15).
Proof.
  intros Hr. destruct (reachable_catalog_inv s Hr) as [Hg Hd].
  assert (Hcells : forall i cell item, grid s !! i = Some cell ->
            WindowCell.active cell = Some item -> item ∈ SPAWNABLES).
  { intros i cell item Hcell. exact (Forall_lookup_1 _ _ _ _ Hg Hcell item). }
  split; [exact Hcells |]. split; [exact Hd |]. split.
  - intros i. unfold onClickWindow.
    destruct (gameOver s); [lia |].
    destruct (negb (is_game (view s))); [lia |].
    destruct (grid s !! i) as [cell|] eqn:Hcell; [| lia].
    destruct (WindowCell.active cell) as [picked|] eqn:Hact; [| lia].
    destruct (is_bomb (Spawnable.kind picked)) eqn:Hb; simpl; [lia |].
    destruct (spawnable_points_bounds picked (Hcells i cell picked Hcell Hact)) as [Hp _].
    unfold windowDelta, themedPoints. rewrite Hb. destruct (theme s); lia.
  - intros now. unfold onClickDoor.
    destruct (gameOver s); [lia |].
    destruct (negb (is_game (view s))); [lia |].
    destruct (doorDrop s) as [prev|] eqn:Hprev; [| lia].
    destruct (DoorDrop.expiresAt prev <=? now); simpl; [lia |].
    pose proof (door_points_bounds _ (Hd prev eq_refl)) as Hp. simpl in Hp.
    unfold themedPoints. destruct (theme s); lia.
Qed.

Lemma reachable_items_at_cloverRun :
  -5 <= points (onClickWindow 4 cloverRun) - points cloverRun <= 5.
Proof.
  destruct (reachable_items_come_from_catalog cloverRun reachable_cloverRun)
    as (_ & _ & Hw & _).
  exact (Hw 4%nat).
Defined.

(** ** What the events of an execution leave alone *)

(** X18: Once the game is over, every event other than [restart] and
    [startGame] leaves it over and leaves the score and the awarded
    milestones as they are. *)
Theorem game_over_is_sticky (s s' : State) :
  step s s' -> gameOver s = true ->
  s' = restart s \/ s' = startGame s
  \/ (gameOver s' = true /\ points s' = points s
      /\ doorMilestonesAwarded s' = doorMilestonesAwarded s).
Proof.
  intros Hstep Hover. destruct Hstep; try congruence;
    try (left; reflexivity); try (right; left; reflexivity); right; right.
  - unfold viewEffect, resume.
    destruct (negb (is_game (view s))), (pausedAt s) as [p|];
      try destruct (0 <? now - p); simpl; repeat split; exact Hover.
  - unfold milestoneEffect. destruct (negb (is_game (view s)));
      rewrite ?Hover; repeat split; exact Hover.
  - unfold onClickWindow. rewrite Hover. repeat split; exact Hover.
  - unfold onClickDoor. rewrite Hover. repeat split; exact Hover.
  - repeat split; exact Hover.
  - repeat split; exact Hover.
  - repeat split; exact Hover.
Qed.

Lemma game_over_is_sticky_after_bomb :
  gameOver (onClickWindow 7 (activeState bombGrid 12 None)) = true
  /\ (onClickDoor 100 (onClickWindow 7 (activeState bombGrid 12 None))
      = restart (onClickWindow 7 (activeState bombGrid 12 None))
      \/ onClickDoor 100 (onClickWindow 7 (activeState bombGrid 12 None))
         = startGame (onClickWindow 7 (activeState bombGrid 12 None))
      \/ (gameOver (onClickDoor 100 (onClickWindow 7 (activeState bombGrid 12 None)))
          = true
          /\ points (onClickDoor 100 (onClickWindow 7 (activeState bombGrid 12 None)))
             = points (onClickWindow 7 (activeState bombGrid 12 None))
          /\ doorMilestonesAwarded
               (onClickDoor 100 (onClickWindow 7 (activeState bombGrid 12 None)))
             = doorMilestonesAwarded (onClickWindow 7 (activeState bombGrid 12 None)))).
Proof.
  split; [reflexivity |].
  apply (game_over_is_sticky (onClickWindow 7 (activeState bombGrid 12 None)));
    [apply step_clickDoor | reflexivity].
Defined.

Lemma milestone_points (now : Z) (u1 u2 : Q) (s : State) :
  points (milestoneEffect now u1 u2 s) = points s.
Proof.
  unfold milestoneEffect.
  destruct (negb (is_game (view s))); [reflexivity |].
  destruct (gameOver s); [reflexivity |].
  destruct (doorMilestones s <=? 0); [reflexivity |].
  destruct (doorMilestones s <=? doorMilestonesAwarded s); [reflexivity |].
  destruct (pickDoorItem u1); reflexivity.
Qed.

(** X19: The score changes only by a window click, a door click, [restart] or
    [startGame]: the spawn tick, the sweep, the timer and the effects
    never change it. *)
Theorem score_changes_only_by_clicks (s s' : State) :
  step s s' -> points s' <> points s ->
  (exists i, s' = onClickWindow i s) \/ (exists now, s' = onClickDoor now s)
  \/ s' = restart s \/ s' = startGame s.
Proof.
  intros Hstep Hne. destruct Hstep;
    try (left; eexists; reflexivity);
    try (right; left; eexists; reflexivity);
    try (right; right; left; reflexivity);
    try (right; right; right; reflexivity);
    exfalso; apply Hne.
  - unfold viewEffect, resume.
    destruct (negb (is_game (view s))), (pausedAt s) as [p|];
      try destruct (0 <? now - p); reflexivity.
  - apply (milestone_points now u1 u2 s).
  - reflexivity.
  - reflexivity.
  - reflexivity.
  - reflexivity.
  - reflexivity.
  - reflexivity.
Qed.

Lemma score_changes_by_click_at_clover :
  points (onClickWindow 4 (activeState cloverGrid 10 None)) <> 10
  /\ ((exists i, onClickWindow 4 (activeState cloverGrid 10 None)
                 = onClickWindow i (activeState cloverGrid 10 None))
      \/ (exists now, onClickWindow 4 (activeState cloverGrid 10 None)
                      = onClickDoor now (activeState cloverGrid 10 None))
      \/ onClickWindow 4 (activeState cloverGrid 10 None)
         = restart (activeState cloverGrid 10 None)
      \/ onClickWindow 4 (activeState cloverGrid 10 None)
         = startGame (activeState cloverGrid 10 None)).
Proof.
  assert (Hne : points (onClickWindow 4 (activeState cloverGrid 10 None)) <> 10)
    by (vm_compute; discriminate).
  split; [exact Hne |].
  apply (score_changes_only_by_clicks (activeState cloverGrid 10 None));
    [apply step_clickWindow | exact Hne].
Defined.

(** ** The displayed time *)

Lemma below_100 (P : Z -> bool) :
  forallb P (map Z.of_nat (seq 0 100)) = true ->
  forall n, 0 <= n < 100 -> P n = true.
Proof.
  intros Hall n Hn. rewrite forallb_forall in Hall. apply Hall.
  rewrite <- (Z2Nat.id n) by lia. apply in_map. apply in_seq. lia.
Qed.

Lemma pad2_two_chars (n : Z) :
  0 <= n < 100 -> exists a b, pad2 n = String a (String b EmptyString).
Proof.
  intros Hn.
  assert (H : two_chars (pad2 n) = true)
    by (apply (below_100 (fun k => two_chars (pad2 k))); [vm_compute; reflexivity | exact Hn]).
  destruct (pad2 n) as [|a [|b [|c r]]]; try discriminate. exists a, b. reflexivity.
Qed.

Lemma pad2_fieldValue (n : Z) : 0 <= n < 100 -> fieldValue (pad2 n) = Some n.
Proof.
  intros Hn.
  assert (H : (match fieldValue (pad2 n) with Some v => v =? n | None => false end) = true)
    by (apply (below_100 (fun k => match fieldValue (pad2 k) with
                                   | Some v => v =? k | None => false end));
        [vm_compute; reflexivity | exact Hn]).
  destruct (fieldValue (pad2 n)) as [v|]; [| discriminate].
  apply Z.eqb_eq in H. congruence.
Qed.

Lemma formatHMS_fields (t : Z) :
  0 <= t < 360000 ->
  0 <= t / 3600 < 100 /\ 0 <= Z.rem t 3600 / 60 < 100 /\ 0 <= Z.rem t 60 < 100
  /\ t = t / 3600 * 3600 + Z.rem t 3600 / 60 * 60 + Z.rem t 60.
Proof.
  intros Ht. rewrite !Z.rem_mod_nonneg by lia. Z.div_mod_to_equations. lia.
Qed.

(** X20: Below 100 hours the displayed time has the eight characters of
    HH:MM:SS, with the colons in third and sixth place, and two
    different numbers of elapsed seconds are displayed differently. *)
Theorem formatHMS_is_fixed_width_and_injective (t1 t2 : Z) :
  0 <= t1 < 360000 -> 0 <= t2 < 360000 ->
  String.length (formatHMS t1) = 8%nat
  /\ String.get 2 (formatHMS t1) = Some ":"%char
  /\ String.get 5 (formatHMS t1) = Some ":"%char
  /\ (formatHMS t1 = formatHMS t2 -> t1 = t2).
Proof.
  intros H1 H2.
  destruct (formatHMS_fields t1 H1) as (Hh1 & Hm1 & Hs1 & E1).
  destruct (formatHMS_fields t2 H2) as (Hh2 & Hm2 & Hs2 & E2).
  pose proof (pad2_fieldValue _ Hh1) as Vh1. pose proof (pad2_fieldValue _ Hm1) as Vm1.
  pose proof (pad2_fieldValue _ Hs1) as Vs1. pose proof (pad2_fieldValue _ Hh2) as Vh2.
  pose proof (pad2_fieldValue _ Hm2) as Vm2. pose proof (pad2_fieldValue _ Hs2) as Vs2.
  unfold formatHMS. cbv zeta.
  destruct (pad2_two_chars _ Hh1) as (a1 & b1 & Ph1).
  destruct (pad2_two_chars _ Hm1) as (c1 & d1 & Pm1).
  destruct (pad2_two_chars _ Hs1) as (e1 & f1 & Ps1).
  destruct (pad2_two_chars _ Hh2) as (a2 & b2 & Ph2).
  destruct (pad2_two_chars _ Hm2) as (c2 & d2 & Pm2).
  destruct (pad2_two_chars _ Hs2) as (e2 & f2 & Ps2).
  rewrite Ph1, Pm1, Ps1, Ph2, Pm2, Ps2 in *.
  repeat split.
  simpl. intros Heq. injection Heq as -> -> -> -> -> ->.
  rewrite Vh1 in Vh2. rewrite Vm1 in Vm2. rewrite Vs1 in Vs2.
  injection Vh2 as Eh. injection Vm2 as Em. injection Vs2 as Es.
  rewrite E1, E2, Eh, Em, Es. reflexivity.
Qed.

Lemma formatHMS_at_3725 :
  formatHMS 3725 = "01:02:05"%string
  /\ String.length (formatHMS 3725) = 8%nat
  /\ formatHMS 3725 <> formatHMS 3726.
Proof.
  destruct (formatHMS_is_fixed_width_and_injective 3725 3726)
    as (Hlen & _ & _ & Hinj); [lia | lia |].
  split; [reflexivity |]. split; [exact Hlen |].
  intros Heq. apply Hinj in Heq. discriminate Heq.
Defined.

(** ** Sweep, then spawn *)

Lemma available_sweepCell (now : Z) (c : WindowCell.t) :
  available now (sweepCell now c) = negb (is_active (sweepCell now c)).
Proof.
  pose proof (sweepCell_live now c) as Hlive.
  unfold available, is_active in *.
  destruct (WindowCell.active (sweepCell now c)); simpl; [| reflexivity].
  apply Z.leb_gt. apply Hlive. discriminate.
Qed.

Lemma occupied_insert_empty (cells : list WindowCell.t) :
  forall (i : nat) (old cell : WindowCell.t),
    cells !! i = Some old -> is_active old = false -> is_active cell = true ->
    occupied (<[ i := cell ]> cells) = S (occupied cells).
Proof.
  unfold occupied.
  induction cells as [|c rest IH]; intros i old cell Hold Hin Hact; [discriminate |].
  destruct i as [|i]; simpl in *.
  - injection Hold as ->. rewrite Hin, Hact. reflexivity.
  - specialize (IH i old cell Hold Hin Hact).
    destruct (is_active c); simpl; rewrite IH; reflexivity.
Qed.

Lemma exists_inactive (cells : list WindowCell.t) :
  (occupied cells < length cells)%nat ->
  exists k cell, cells !! k = Some cell /\ is_active cell = false.
Proof.
  unfold occupied. induction cells as [|c rest IH]; simpl; [lia |].
  destruct (is_active c) eqn:E; simpl; intros Hlt.
  - destruct IH as (k & cell & Hk & Hc); [lia |].
    exists (S k), cell. split; assumption.
  - exists 0%nat, c. split; [reflexivity | exact E].
Qed.

(** X21: A spawn tick that runs at the instant of a sweep, on a grid that the
    sweep leaves with a free slot, raises the number of occupied slots
    by exactly one. *)
Theorem spawn_after_sweep_adds_one (now : Z) (u1 u2 u3 : Q) (s : State) :
  unit_draw u1 -> unit_draw u2 ->
  (occupied (grid (cleanupTick now s)) < length (grid s))%nat ->
  occupied (grid (spawnTick now u1 u2 u3 (cleanupTick now s)))
  = S (occupied (grid (cleanupTick now s))).
Proof.
  intros Hu1 Hu2 Hfree. simpl in *.
  set (g := map (sweepCell now) (grid s)) in *.
  assert (Hswept : forall i c, g !! i = Some c -> available now c = negb (is_active c)).
  { intros i c Hc. subst g. change (map ?f ?l) with (f <$> l) in Hc.
    rewrite list_lookup_fmap in Hc. destruct (grid s !! i) as [c0|]; [| discriminate].
    simpl in Hc. injection Hc as <-. apply available_sweepCell. }
  destruct (exists_inactive g) as (k & cell & Hk & Hcell).
  { subst g. rewrite length_map. exact Hfree. }
  destruct (spawnGrid_populates now u1 u2 u3 g k cell Hu1 Hu2 Hk)
    as (target & old & item & Hold & Hoav & _ & ->).
  { rewrite (Hswept k cell Hk), Hcell. reflexivity. }
  apply (occupied_insert_empty g target old); [exact Hold | | reflexivity].
  rewrite (Hswept target old Hold) in Hoav.
  destruct (is_active old); [discriminate | reflexivity].
Qed.

Lemma spawn_after_sweep_at_clover :
  occupied (grid (cleanupTick 5000 (activeState cloverGrid 0 None))) = 0%nat
  /\ occupied (grid (spawnTick 5000 (1 # 3) (7 # 8) (1 # 2)
                       (cleanupTick 5000 (activeState cloverGrid 0 None))))
     = 1%nat.
Proof.
  split; [reflexivity |].
  apply (spawn_after_sweep_adds_one 5000 (1 # 3) (7 # 8) (1 # 2)
           (activeState cloverGrid 0 None));
    [split; [discriminate | reflexivity] | split; [discriminate | reflexivity]
    | vm_compute; lia].
Defined.

(** ** Resume when the clock has stepped back *)

(** X22: When the game view is entered with a pause mark that is not in the
    past ([now <= p]), no expiry is shifted: the grid and the door drop
    are as they were; the pause mark is cleared and the start reference
    is set as in every resume. *)
Theorem resume_without_elapsed_pause (now p : Z) (s : State) :
  view s = game -> pausedAt s = Some p -> now <= p ->
  grid (viewEffect now s) = grid s
  /\ doorDrop (viewEffect now s) = doorDrop s
  /\ pausedAt (viewEffect now s) = None
  /\ startedAt (viewEffect now s) = now - elapsedSeconds s * 1000
  /\ elapsedSeconds (timerTick now (viewEffect now s)) = elapsedSeconds s.
Proof.
  intros Hview Hp Hle. rewrite (viewEffect_resume now p s Hview Hp).
  unfold resume. destruct (Z.ltb_spec 0 (now - p)); [lia |].
  simpl. repeat split. unfold timerTick. simpl.
  replace (now - (now - elapsedSeconds s * 1000)) with (elapsedSeconds s * 1000) by lia.
  apply Z.div_mul. lia.
Qed.

Lemma resume_without_elapsed_pause_at_pausedState :
  9000 <= 10000
  /\ grid (viewEffect 9000 pausedState) = grid pausedState
  /\ doorDrop (viewEffect 9000 pausedState) = doorDrop pausedState.
Proof.
  split; [lia |].
  destruct (resume_without_elapsed_pause 9000 10000 pausedState)
    as (Hg & Hd & _); [reflexivity | reflexivity | lia |].
  split; [exact Hg | exact Hd].
Defined.
